(** * SSD1681 e-paper driver (ssd1681_driver.py): shallow embedding

    The driver object keeps two bit-packed planes ([buffer] for the
    black/white RAM, [red_buffer] for the red RAM), maps canvas coordinates
    to a byte and a bit of those planes according to a mounting
    orientation, renders text from an 8x8 font table and talks to the
    controller over SPI with a polled busy line.

    Python integers are [Z] (floor division and modulo are [Z.div] and
    [Z.modulo]), a [bytearray] is a [list Z] with Python's indexing rules
    written out, exceptions are outcomes of a small state-and-exception
    monad, and the collaborators reached through the pins, the SPI bus and
    the [time] module are fields of an explicit board state. *)

From Stdlib Require Import ZArith Lia Ascii String.
From stdpp Require Import base list gmap strings.

Local Open Scope Z_scope.

(** ** Constants of the module *)

Definition CMD_SW_RESET : Z := 0x12.
Definition CMD_GATE_DRIVING_VOLTAGE : Z := 0x01.
Definition CMD_DATA_ENTRY_MODE : Z := 0x11.
Definition CMD_SET_RAM_X_RANGE : Z := 0x44.
Definition CMD_SET_RAM_Y_RANGE : Z := 0x45.
Definition CMD_SET_RAM_X_COUNTER : Z := 0x4E.
Definition CMD_SET_RAM_Y_COUNTER : Z := 0x4F.
Definition CMD_WRITE_RAM_BW : Z := 0x24.
Definition CMD_WRITE_RAM_RED : Z := 0x26.
Definition CMD_LOAD_LUT : Z := 0x22.
Definition CMD_ACTIVATE_DISPLAY : Z := 0x20.
Definition CMD_DISPLAY_UPDATE : Z := 0x22.
Definition CMD_MASTER_ACTIVATE : Z := 0x20.
Definition CMD_DEEP_SLEEP : Z := 0x10.
Definition CMD_SOFT_START : Z := 0x0C.

Definition UPDATE_MODE_FULL : Z := 0xF7.
Definition DATA_ENTRY_MODE_DEFAULT : Z := 0x03.

Definition COLOR_WHITE : Z := 0.
Definition COLOR_BLACK : Z := 1.
Definition COLOR_RED : Z := 2.

Definition ORIENTATION_0 : Z := 0.
Definition ORIENTATION_90 : Z := 1.
Definition ORIENTATION_180 : Z := 2.
Definition ORIENTATION_270 : Z := 3.

(** ** The board: pins, bus and clock *)

(** One [spi.write]: the level of the data/command line while the bytes
    were clocked out, and the bytes. *)
Record transfer := Transfer { on_dc : Z; payload : list Z }.

(** What the driver reaches through [self.spi], [self.cs], [self.dc],
    [self.rst], [self.busy] and the [time] module.  [busy_line t] is the
    level of the busy input at time [t] (milliseconds); [ticks] is what
    [time.ticks_ms()] returns, taken without wrap-around; a
    [time.sleep_ms n] started at time [t] lasts [n] plus [overrun t]
    milliseconds. *)
Record Board := mkBoard {
  spi_log : list transfer;
  cs : Z;
  dc : Z;
  rst : Z;
  busy_line : Z -> bool;
  ticks : Z;
  overrun : Z -> N
}.

(** ** The driver object *)

Record SSD1681 := mkSSD1681 {
  board : Board;
  width : Z;
  height : Z;
  orientation : Z;
  _buffer_size : Z;
  buffer : list Z;
  red_buffer : list Z
}.

Definition with_board (bd : Board) (self : SSD1681) : SSD1681 :=
  mkSSD1681 bd (width self) (height self) (orientation self)
            (_buffer_size self) (buffer self) (red_buffer self).

(** The two bytearray objects a caller can hand to [_set_pixel_buffer]:
    [self.buffer] and [self.red_buffer].  Passing the object and mutating
    it in place is passing the name of the field and updating the field. *)
Inductive plane := Primary | Accent.

Definition get_plane (p : plane) (self : SSD1681) : list Z :=
  match p with Primary => buffer self | Accent => red_buffer self end.

Definition set_plane (p : plane) (b : list Z) (self : SSD1681) : SSD1681 :=
  match p with
  | Primary => mkSSD1681 (board self) (width self) (height self)
                 (orientation self) (_buffer_size self) b (red_buffer self)
  | Accent => mkSSD1681 (board self) (width self) (height self)
                 (orientation self) (_buffer_size self) (buffer self) b
  end.

(** ** Python sequences *)

(** [[v] * n]: the empty list when [n] is not positive. *)
Definition py_repeat (v : Z) (n : Z) : list Z := replicate (Z.to_nat n) v.

(** [bytearray(items)] on MicroPython keeps the low eight bits of every
    item. *)
Definition bytearray (items : list Z) : list Z := (fun v => Z.land v 0xFF) <$> items.

(** Position designated by a Python subscript [i] in a sequence of [n]
    items: counted from the end when negative, none when out of range. *)
Definition py_index (n : nat) (i : Z) : option nat :=
  if (0 <=? i) && (i <? Z.of_nat n) then Some (Z.to_nat i)
  else if (- Z.of_nat n <=? i) && (i <? 0) then Some (Z.to_nat (Z.of_nat n + i))
  else None.

Definition getitem (b : list Z) (i : Z) : option Z :=
  k ← py_index (length b) i; b !! k.

Definition setitem (b : list Z) (i : Z) (v : Z) : option (list Z) :=
  k ← py_index (length b) i; Some (<[k := v]> b).

(** [range(n)] *)
Definition range (n : Z) : list Z := seqZ 0 n.

(** ** Drawing code: state and exceptions *)

Inductive exn := IndexError | KeyError.

(** A call either returns a value or raises; in both cases the object is
    left in some state. *)
Inductive outcome (A : Type) :=
| Ok (a : A) (self : SSD1681)
| Raised (e : exn) (self : SSD1681).
Arguments Ok {A} a self.
Arguments Raised {A} e self.

Definition final {A} (o : outcome A) : SSD1681 :=
  match o with Ok _ s => s | Raised _ s => s end.

Definition M (A : Type) : Type := SSD1681 -> outcome A.

Definition ret {A} (a : A) : M A := fun self => Ok a self.

Definition raise {A} (e : exn) : M A := fun self => Raised e self.

Definition bind {A B} (c : M A) (k : A -> M B) : M B := fun self =>
  match c self with
  | Ok a self' => k a self'
  | Raised e self' => Raised e self'
  end.

Declare Scope py_scope.
Delimit Scope py_scope with py.
Notation "x ← c ; k" := (bind c (fun x => k))
  (at level 20, c at level 100, k at level 200, only parsing) : py_scope.
Notation "c ;; k" := (bind c (fun _ => k))
  (at level 100, k at level 200, only parsing, right associativity) : py_scope.

(** [for i in items: body(i)] *)
Fixpoint for_each {A} (items : list A) (body : A -> M unit) : M unit :=
  match items with
  | [] => ret tt
  | i :: rest => (body i ;; for_each rest body)%py
  end.

(** [b[i]] and [b[i] = v] on one of the planes of the object. *)
Definition load (p : plane) (i : Z) : M Z := fun self =>
  match getitem (get_plane p self) i with
  | Some v => Ok v self
  | None => Raised IndexError self
  end.

Definition store (p : plane) (i : Z) (v : Z) : M unit := fun self =>
  match setitem (get_plane p self) i v with
  | Some b => Ok tt (set_plane p b self)
  | None => Raised IndexError self
  end.

(** ** Construction *)

Definition on_board (f : Board -> Board) (self : SSD1681) : SSD1681 :=
  with_board (f (board self)) self.

Definition set_cs (v : Z) (bd : Board) : Board :=
  mkBoard (spi_log bd) v (dc bd) (rst bd) (busy_line bd) (ticks bd) (overrun bd).

Definition set_dc (v : Z) (bd : Board) : Board :=
  mkBoard (spi_log bd) (cs bd) v (rst bd) (busy_line bd) (ticks bd) (overrun bd).

Definition set_rst (v : Z) (bd : Board) : Board :=
  mkBoard (spi_log bd) (cs bd) (dc bd) v (busy_line bd) (ticks bd) (overrun bd).

(** [spi.write(bytes)] *)
Definition spi_write (bytes : list Z) (bd : Board) : Board :=
  mkBoard (spi_log bd ++ [Transfer (dc bd) bytes]) (cs bd) (dc bd) (rst bd)
          (busy_line bd) (ticks bd) (overrun bd).

(** [time.sleep_ms(n)] *)
Definition sleep_ms (n : Z) (bd : Board) : Board :=
  mkBoard (spi_log bd) (cs bd) (dc bd) (rst bd) (busy_line bd)
          (ticks bd + n + Z.of_N (overrun bd (ticks bd))) (overrun bd).

(** [time.ticks_diff(a, b)], without wrap-around. *)
Definition ticks_diff (a b : Z) : Z := a - b.

Definition _init_pins (self : SSD1681) : SSD1681 :=
  let self := on_board (set_cs 1) self in
  let self := on_board (set_dc 0) self in
  let self := on_board (set_rst 1) self in
  self.

Definition __init__ (bd : Board) (w h o : Z) : SSD1681 :=
  let size := w * h / 8 in
  _init_pins (mkSSD1681 bd w h o size
                (bytearray (py_repeat 0xFF size))
                (bytearray (py_repeat 0x00 size))).

(** [create_display]: the pin numbers only select which pins of the board
    are used. *)
Definition create_display (bd : Board) (o w h : Z) : SSD1681 := __init__ bd w h o.

(** ** Coordinate mapping *)

(** The orientation branch of [_map_coordinates]: the pair [(hw_x, hw_y)]. *)
Definition hw_coordinates (self : SSD1681) (x y : Z) : Z * Z :=
  if orientation self =? ORIENTATION_0 then
    (width self - 1 - x, height self - 1 - y)
  else if orientation self =? ORIENTATION_90 then
    (y, width self - 1 - x)
  else if orientation self =? ORIENTATION_180 then
    (x, y)
  else if orientation self =? ORIENTATION_270 then
    (height self - 1 - y, x)
  else
    (width self - 1 - x, height self - 1 - y).

(** [_map_coordinates]: the pair [(byte_index, bit_index)]. *)
Definition _map_coordinates (self : SSD1681) (x y : Z) : Z * Z :=
  let '(hw_x, hw_y) := hw_coordinates self x y in
  let byte_index := (hw_y * width self + hw_x) / 8 in
  let bit_index := hw_x mod 8 in
  (byte_index, bit_index).

(** [0 <= x < self.width and 0 <= y < self.height] *)
Definition in_canvas (self : SSD1681) (x y : Z) : bool :=
  (0 <=? x) && (x <? width self) && ((0 <=? y) && (y <? height self)).

(** ** Drawing *)

Definition _set_pixel_buffer (x y : Z) (p : plane) (value : bool) : M unit := fun self =>
  if negb (in_canvas self x y) then Ok tt self
  else
    let '(byte_index, bit_index) := _map_coordinates self x y in
    (if value then
       old ← load p byte_index;
       store p byte_index (Z.lor old (Z.shiftr 0x80 bit_index))
     else
       old ← load p byte_index;
       store p byte_index (Z.land old (Z.lnot (Z.shiftr 0x80 bit_index))))%py self.

Definition clear : M unit := fun self =>
  (for_each (range (_buffer_size self)) (fun i => store Primary i 0xFF) ;;
   for_each (range (_buffer_size self)) (fun i => store Accent i 0x00))%py self.

(** Coordinates are integers here, on which [int(x)] and [int(y)] are the
    identity. *)
Definition pixel (x y color : Z) : M unit :=
  (if color =? COLOR_WHITE then
     _set_pixel_buffer x y Primary true ;;
     _set_pixel_buffer x y Accent false
   else if color =? COLOR_BLACK then
     _set_pixel_buffer x y Primary false ;;
     _set_pixel_buffer x y Accent false
   else if color =? COLOR_RED then
     _set_pixel_buffer x y Primary true ;;
     _set_pixel_buffer x y Accent true
   else ret tt)%py.

(** [enumerate(string)], counting from [i]. *)
Fixpoint enumerate_from (i : Z) (chars : list ascii) : list (Z * ascii) :=
  match chars with
  | [] => []
  | c :: rest => (i, c) :: enumerate_from (i + 1) rest
  end.

Section Font.

(** The font table the driver imports from [ssd1681_driver_fonts]: a
    dictionary from a character to the rows of its glyph.  The drawing code
    is verified for any such table. *)
Variable FONT_8X8 : gmap ascii (list Z).

Definition _draw_char (char : ascii) (x y color font_size : Z) : M unit :=
  match FONT_8X8 !! " "%char with
  | None => raise KeyError
  | Some blank =>
    let char_data := default blank (FONT_8X8 !! char) in
    for_each (range 8) (fun row =>
      for_each (range 8) (fun col =>
        match getitem char_data (7 - col) with
        | None => raise IndexError
        | Some bits =>
          if Z.land bits (Z.shiftl 1 row) =? 0 then ret tt
          else
            for_each (range font_size) (fun scale_row =>
              for_each (range font_size) (fun scale_col =>
                let pixel_x := x + (7 - col) * font_size + scale_col in
                let pixel_y := y + row * font_size + scale_row in
                pixel pixel_x pixel_y color))
        end))
  end.

(** The loop of [text] over [enumerate(string)]; leaving the match on the
    first branch of the conditional is the [break]. *)
Fixpoint text_loop (chars : list (Z * ascii)) (x y color font_size char_width : Z)
  : M unit :=
  match chars with
  | [] => ret tt
  | (char_index, char) :: rest => fun self =>
    let char_x := x + char_index * char_width in
    if char_x + char_width >? width self then Ok tt self
    else (_draw_char char char_x y color font_size ;;
          text_loop rest x y color font_size char_width)%py self
  end.

Definition text (string : string) (x y color font_size : Z) : M unit :=
  let char_width := 8 * font_size in
  text_loop (enumerate_from 0 (list_ascii_of_string string)) x y color font_size char_width.

End Font.

(** ** Talking to the controller *)

(** What [_command] and [_data] accept as [data]: a list, a bytearray or a
    single integer. *)
Inductive pyval :=
| PyList (items : list Z)
| PyBytearray (bytes : list Z)
| PyInt (n : Z).

Definition _data (data : pyval) (self : SSD1681) : SSD1681 :=
  let self := on_board (set_dc 1) self in
  let self := on_board (set_cs 0) self in
  let self :=
    match data with
    | PyList items => on_board (spi_write (bytearray items)) self
    | PyBytearray bytes => on_board (spi_write bytes) self
    | PyInt n => on_board (spi_write (bytearray [n])) self
    end in
  let self := on_board (set_cs 1) self in
  on_board (sleep_ms 1) self.

(** [data] is [None] when the command has no payload. *)
Definition _command (cmd : Z) (data : option pyval) (self : SSD1681) : SSD1681 :=
  let self := on_board (set_dc 0) self in
  let self := on_board (set_cs 0) self in
  let self := on_board (spi_write (bytearray [cmd])) self in
  let self := on_board (set_cs 1) self in
  let self := on_board (sleep_ms 1) self in
  match data with
  | Some d => _data d self
  | None => self
  end.

(** The [while] loop of [_wait_busy]; [fuel] bounds the number of times
    its condition is evaluated. *)
Fixpoint _wait_busy_loop (fuel : nat) (start timeout_ms : Z) (self : SSD1681)
  : option SSD1681 :=
  match fuel with
  | O => None
  | S fuel' =>
    if busy_line (board self) (ticks (board self))
       && (ticks_diff (ticks (board self)) start <? timeout_ms)
    then _wait_busy_loop fuel' start timeout_ms (on_board (sleep_ms 50) self)
    else Some self
  end.

Definition _wait_busy (fuel : nat) (timeout_ms : Z) (self : SSD1681)
  : option (bool * SSD1681) :=
  let start := ticks (board self) in
  self' ← _wait_busy_loop fuel start timeout_ms self;
  Some (ticks_diff (ticks (board self')) start <? timeout_ms, self').

(** The default of [timeout_ms]. *)
Definition default_timeout_ms : Z := 15000.

Definition _reset_ram_address (self : SSD1681) : SSD1681 :=
  let self := _command CMD_SET_RAM_X_COUNTER (Some (PyList [0x00])) self in
  _command CMD_SET_RAM_Y_COUNTER (Some (PyList [0x00; 0x00])) self.

Definition reset (self : SSD1681) : SSD1681 :=
  let self := on_board (set_rst 1) self in
  let self := on_board (sleep_ms 200) self in
  let self := on_board (set_rst 0) self in
  let self := on_board (sleep_ms 10) self in
  let self := on_board (set_rst 1) self in
  on_board (sleep_ms 200) self.

Definition _power_on_sequence (fuel : nat) (self : SSD1681) : option SSD1681 :=
  let self := reset self in
  '(_, self) ← _wait_busy fuel default_timeout_ms self;
  let self := _command CMD_SW_RESET None self in
  '(_, self) ← _wait_busy fuel default_timeout_ms self;
  Some self.

Definition _configure_ram (self : SSD1681) : SSD1681 :=
  let self := _command CMD_GATE_DRIVING_VOLTAGE (Some (PyList [0xC7; 0x00; 0x00])) self in
  let self := _command CMD_DATA_ENTRY_MODE (Some (PyList [DATA_ENTRY_MODE_DEFAULT])) self in
  let x_end := width self / 8 - 1 in
  let self := _command CMD_SET_RAM_X_RANGE (Some (PyList [0x00; x_end])) self in
  let y_end_low := Z.land (height self - 1) 0xFF in
  let y_end_high := Z.land (Z.shiftr (height self - 1) 8) 0xFF in
  let self :=
    _command CMD_SET_RAM_Y_RANGE (Some (PyList [0x00; 0x00; y_end_low; y_end_high])) self in
  _reset_ram_address self.

Definition _load_lut (fuel : nat) (self : SSD1681) : option SSD1681 :=
  let self := _command CMD_LOAD_LUT (Some (PyList [0xB1])) self in
  let self := _command CMD_ACTIVATE_DISPLAY None self in
  '(_, self) ← _wait_busy fuel default_timeout_ms self;
  Some self.

Definition init (fuel : nat) (self : SSD1681) : option SSD1681 :=
  self ← _power_on_sequence fuel self;
  let self := _configure_ram self in
  self ← _load_lut fuel self;
  '(_, self) ← _wait_busy fuel default_timeout_ms self;
  Some self.

Definition show (fuel : nat) (self : SSD1681) : option SSD1681 :=
  let self := _reset_ram_address self in
  let self := _command CMD_WRITE_RAM_BW (Some (PyBytearray (buffer self))) self in
  let self := _reset_ram_address self in
  let self := _command CMD_WRITE_RAM_RED (Some (PyBytearray (red_buffer self))) self in
  let self := _command CMD_SOFT_START (Some (PyList [0xD7; 0xD6; 0x9D])) self in
  let self := _command CMD_DISPLAY_UPDATE (Some (PyList [UPDATE_MODE_FULL])) self in
  let self := _command CMD_MASTER_ACTIVATE None self in
  '(_, self) ← _wait_busy fuel default_timeout_ms self;
  Some self.

Definition sleep (self : SSD1681) : SSD1681 :=
  _command CMD_DEEP_SLEEP (Some (PyList [0x01])) self.

(** ** Reading a transcript and a plane back *)

(** The payload that followed the last command byte [cmd] on the bus: the
    bytes the controller stored for that command. *)
Fixpoint payload_after (cmd : Z) (log : list transfer) : option (list Z) :=
  match log with
  | Transfer 0 [c] :: Transfer 1 bytes :: rest =>
    match payload_after cmd rest with
    | Some later => Some later
    | None => if c =? cmd then Some bytes else None
    end
  | _ :: rest => payload_after cmd rest
  | [] => None
  end.

(** The bit of a plane at a mapped position: is the bit selected by
    [0x80 >> bit_index] set in byte [byte_index]? *)
Definition read_bit (b : list Z) (byte_index bit_index : Z) : option bool :=
  v ← getitem b byte_index;
  Some (negb (Z.land v (Z.shiftr 0x80 bit_index) =? 0)).

(** The pair of plane bits of a canvas pixel. *)
Definition plane_bits (self : SSD1681) (x y : Z) : option (bool * bool) :=
  let '(byte_index, bit_index) := _map_coordinates self x y in
  p ← read_bit (buffer self) byte_index bit_index;
  a ← read_bit (red_buffer self) byte_index bit_index;
  Some (p, a).

(** ** Vocabulary of the properties *)

(** The planes have the length the constructor recorded. *)
Definition planes_allocated (self : SSD1681) : Prop :=
  length (buffer self) = Z.to_nat (_buffer_size self) /\
  length (red_buffer self) = Z.to_nat (_buffer_size self).

(** What the constructor establishes and every method keeps. *)
Definition well_formed (self : SSD1681) : Prop :=
  _buffer_size self = width self * height self / 8 /\ planes_allocated self.

(** Geometry the orientations rely on: the quarter turns exchange the two
    axes, and a row of the controller RAM is a whole number of bytes. *)
Definition square_for_quarter_turns (self : SSD1681) : Prop :=
  orientation self = ORIENTATION_90 \/ orientation self = ORIENTATION_270 ->
  width self = height self.

Definition byte_aligned (self : SSD1681) : Prop := width self mod 8 = 0.

(** A cell of the physical grid: [hw_x] in [0, width), [hw_y] in [0, height). *)
Definition in_grid (self : SSD1681) (hw : Z * Z) : Prop :=
  (0 <= hw.1 < width self) /\ (0 <= hw.2 < height self).

(** Everything but the contents of the planes is the same, and the planes
    have kept their lengths. *)
Definition same_shape (s s' : SSD1681) : Prop :=
  board s' = board s /\ width s' = width s /\ height s' = height s /\
  orientation s' = orientation s /\ _buffer_size s' = _buffer_size s /\
  length (buffer s') = length (buffer s) /\
  length (red_buffer s') = length (red_buffer s).

Definition preserves_shape {A} (c : M A) : Prop :=
  forall self, same_shape self (final (c self)).

(** The planes have the same lengths in both states. *)
Definition same_lengths (s s' : SSD1681) : Prop :=
  length (buffer s') = length (buffer s) /\
  length (red_buffer s') = length (red_buffer s).

(** [ceil(n / 8)] *)
Definition ceil_div8 (n : Z) : Z := (n + 7) / 8.

(** A board right after power-up, with nothing on the bus yet. *)
Definition power_up (busy : Z -> bool) (late : Z -> N) (t0 : Z) : Board :=
  mkBoard [] 0 0 0 busy t0 late.

(** A board whose controller is never busy, and one whose controller never
    releases the busy line. *)
Definition idle_board : Board := power_up (fun _ => false) (fun _ => 0%N) 0.
Definition stuck_board : Board := power_up (fun _ => true) (fun _ => 0%N) 0.

Definition set_ticks (t : Z) (bd : Board) : Board :=
  mkBoard (spi_log bd) (cs bd) (dc bd) (rst bd) (busy_line bd) t (overrun bd).

(** Evaluations of the loop condition of [_wait_busy] that suffice for a
    timeout of [timeout_ms]: one per started 50 ms, and the last one. *)
Definition polls_needed (timeout_ms : Z) : nat := Z.to_nat ((timeout_ms + 49) / 50) + 1.

(** [self'] is [self] after the transfers [frames] and some time: the bus
    transcript grew by [frames], and width, height, orientation and planes
    are those of [self]. *)
Definition transmitted (frames : list transfer) (self self' : SSD1681) : Prop :=
  exists bd, self' = with_board bd self /\
             spi_log bd = spi_log (board self) ++ frames /\
             busy_line bd = busy_line (board self) /\
             overrun bd = overrun (board self).

(** The transfers of one [_command(cmd, data)]. *)
Definition command_frames (cmd : Z) (data : option pyval) : list transfer :=
  Transfer 0 (bytearray [cmd]) ::
  match data with
  | None => []
  | Some (PyList items) => [Transfer 1 (bytearray items)]
  | Some (PyBytearray bytes) => [Transfer 1 bytes]
  | Some (PyInt n) => [Transfer 1 (bytearray [n])]
  end.

Definition reset_ram_address_frames : list transfer :=
  command_frames CMD_SET_RAM_X_COUNTER (Some (PyList [0x00])) ++
  command_frames CMD_SET_RAM_Y_COUNTER (Some (PyList [0x00; 0x00])).

(** The transcript of [init] on a panel of the given width and height. *)
Definition init_frames (w h : Z) : list transfer :=
  command_frames CMD_SW_RESET None ++
  command_frames CMD_GATE_DRIVING_VOLTAGE (Some (PyList [0xC7; 0x00; 0x00])) ++
  command_frames CMD_DATA_ENTRY_MODE (Some (PyList [DATA_ENTRY_MODE_DEFAULT])) ++
  command_frames CMD_SET_RAM_X_RANGE (Some (PyList [0x00; w / 8 - 1])) ++
  command_frames CMD_SET_RAM_Y_RANGE
    (Some (PyList [0x00; 0x00; Z.land (h - 1) 0xFF; Z.land (Z.shiftr (h - 1) 8) 0xFF])) ++
  reset_ram_address_frames ++
  command_frames CMD_LOAD_LUT (Some (PyList [0xB1])) ++
  command_frames CMD_ACTIVATE_DISPLAY None.

(** The transcript of [show] for the given planes. *)
Definition show_frames (bw red : list Z) : list transfer :=
  reset_ram_address_frames ++
  command_frames CMD_WRITE_RAM_BW (Some (PyBytearray bw)) ++
  reset_ram_address_frames ++
  command_frames CMD_WRITE_RAM_RED (Some (PyBytearray red)) ++
  command_frames CMD_SOFT_START (Some (PyList [0xD7; 0xD6; 0x9D])) ++
  command_frames CMD_DISPLAY_UPDATE (Some (PyList [UPDATE_MODE_FULL])) ++
  command_frames CMD_MASTER_ACTIVATE None.

(** The end-to-end run: a 200x200 session at orientation 0, [init()],
    [clear()], [pixel(0, 0, COLOR_RED)], [show()].  [None] is running out of
    fuel in a busy-wait. *)
Definition red_corner_run (fuel : nat) (bd : Board) : option (outcome unit) :=
  let display := create_display bd ORIENTATION_0 200 200 in
  display ← init fuel display;
  match (clear ;; pixel 0 0 COLOR_RED)%py display with
  | Ok _ display => display ← show fuel display; Some (Ok tt display)
  | Raised e display => Some (Raised e display)
  end.

(** *** Text layout as the specification words it *)

(** Right edge of character [i] of a text that starts at [x]. *)
Definition right_edge (x scale i : Z) : Z := x + (i + 1) * (8 * scale).

(** Number of characters, among [len] characters counted from [i], before
    the first one whose right edge exceeds the canvas width [w]. *)
Fixpoint rendered_count (w x scale i : Z) (len : nat) : nat :=
  match len with
  | O => O
  | S len' =>
    if right_edge x scale i >? w then O
    else S (rendered_count w x scale (i + 1) len')
  end.

Section FontSpec.

Variable FONT_8X8 : gmap ascii (list Z).

(** Draw the characters that fit, character [i] at [x + i * 8 * scale]. *)
Definition text_spec (string : string) (x y color scale : Z) : M unit := fun self =>
  let chars := list_ascii_of_string string in
  let n := rendered_count (width self) x scale 0 (length chars) in
  for_each (enumerate_from 0 (take n chars))
           (fun '(i, c) => _draw_char FONT_8X8 c (x + i * (8 * scale)) y color scale) self.

End FontSpec.

(** A two-glyph font table for running the text code on examples. *)
Definition sample_font : gmap ascii (list Z) :=
  list_to_map [(" "%char, [0x00; 0x00; 0x00; 0x00; 0x00; 0x00; 0x00; 0x00]);
               ("A"%char, [0x18; 0x3C; 0x66; 0x7E; 0x66; 0x66; 0x66; 0x00])].

(** *** Vocabulary of the further properties *)

(** The sessions the driver is written for: consistent fields, rows of
    whole bytes, a square panel when mounted at a quarter turn. *)
Definition supported (self : SSD1681) : Prop :=
  well_formed self /\ byte_aligned self /\ square_for_quarter_turns self.

Definition is_byte (v : Z) : Prop := 0 <= v < 256.

(** Every item of both planes is a byte value. *)
Definition bytes_ok (self : SSD1681) : Prop :=
  Forall is_byte (buffer self) /\ Forall is_byte (red_buffer self).

(** [c] relates every state to the one it leaves, whether it returns or
    raises. *)
Definition keeps {A} (R : SSD1681 -> SSD1681 -> Prop) (c : M A) : Prop :=
  forall self, R self (final (c self)).

(** From a state that satisfies [Inv], [c] returns, in a state that
    satisfies [Inv]. *)
Definition returns {A} (Inv : SSD1681 -> Prop) (c : M A) : Prop :=
  forall self, Inv self -> exists a self', c self = Ok a self' /\ Inv self'.

(** Between [s] and [s'] only plane bits of canvas pixels in [P] may have
    changed (on a panel with whole-byte rows, square for quarter turns). *)
Definition untouched_outside (P : Z -> Z -> Prop) (s s' : SSD1681) : Prop :=
  same_shape s s' /\
  (byte_aligned s -> square_for_quarter_turns s ->
   forall x y, in_canvas s x y = true -> ~ P x y ->
               plane_bits s' x y = plane_bits s x y).

(** The square of side [8 * scale] whose top-left corner is [(x, y)]. *)
Definition in_cell (x y scale : Z) (px py : Z) : Prop :=
  (x <= px < x + 8 * scale) /\ (y <= py < y + 8 * scale).

(** A font table the drawing code can use: it has the blank, and every
    glyph has its eight rows. *)
Definition good_font (FONT_8X8 : gmap ascii (list Z)) : Prop :=
  (exists blank, FONT_8X8 !! " "%char = Some blank) /\
  (forall c glyph, FONT_8X8 !! c = Some glyph -> (8 <= length glyph)%nat).

(** The byte [_set_pixel_buffer] stores over [old] for a bit index. *)
Definition updated_byte (value : bool) (old bit_index : Z) : Z :=
  if value then Z.lor old (Z.shiftr 0x80 bit_index)
  else Z.land old (Z.lnot (Z.shiftr 0x80 bit_index)).

(** The pair of plane bits [pixel] writes for a colour it knows: primary
    bit, accent bit. *)
Definition color_bits (color : Z) : option (bool * bool) :=
  if color =? COLOR_WHITE then Some (true, false)
  else if color =? COLOR_BLACK then Some (false, false)
  else if color =? COLOR_RED then Some (true, true)
  else None.

(** The object with the bits of pixel [(x, y)] set for [color] in both
    planes, where the planes have the byte; nothing changes for a colour
    [pixel] does not know. *)
Definition painted (color x y : Z) (self : SSD1681) : SSD1681 :=
  match color_bits color with
  | Some (primary, accent) =>
    let '(byte_index, bit_index) := _map_coordinates self x y in
    mkSSD1681 (board self) (width self) (height self) (orientation self)
              (_buffer_size self)
              (alter (fun old => updated_byte primary old bit_index)
                     (Z.to_nat byte_index) (buffer self))
              (alter (fun old => updated_byte accent old bit_index)
                     (Z.to_nat byte_index) (red_buffer self))
  | None => self
  end.

(** [range(a, b)] *)
Definition range_from (a b : Z) : list Z := seqZ a (b - a).

(** *** The wrapping tick counter *)

(** MicroPython's millisecond counter wraps: [time.ticks_ms()] is the time
    modulo [TICKS_PERIOD] (2^30 on the ports this driver runs on), and
    [time.ticks_diff(a, b)] is the difference brought back into
    [-TICKS_PERIOD/2, TICKS_PERIOD/2). *)
Definition TICKS_PERIOD : Z := 2 ^ 30.

Definition ticks_ms (bd : Board) : Z := ticks bd mod TICKS_PERIOD.

Definition ticks_diff_wrapping (a b : Z) : Z :=
  (a - b + TICKS_PERIOD / 2) mod TICKS_PERIOD - TICKS_PERIOD / 2.

(** [_wait_busy] as it runs on that counter: the loop, and the method. *)
Fixpoint _wait_busy_loop_wrapping (fuel : nat) (start timeout_ms : Z) (self : SSD1681)
  : option SSD1681 :=
  match fuel with
  | O => None
  | S fuel' =>
    if busy_line (board self) (ticks (board self))
       && (ticks_diff_wrapping (ticks_ms (board self)) start <? timeout_ms)
    then _wait_busy_loop_wrapping fuel' start timeout_ms (on_board (sleep_ms 50) self)
    else Some self
  end.

Definition _wait_busy_wrapping (fuel : nat) (timeout_ms : Z) (self : SSD1681)
  : option (bool * SSD1681) :=
  let start := ticks_ms (board self) in
  self' ← _wait_busy_loop_wrapping fuel start timeout_ms self;
  Some (ticks_diff_wrapping (ticks_ms (board self')) start <? timeout_ms, self').

(** *** What a drawing covers *)

(** The rows of the glyph [_draw_char] uses for a character: its own, or
    those of the blank. *)
Definition glyph_of (FONT_8X8 : gmap ascii (list Z)) (char : ascii) : list Z :=
  default (default [] (FONT_8X8 !! " "%char)) (FONT_8X8 !! char).

(** Is bit [row] of item [j] of a glyph set?  Item [j] is the [j]-th
    column of blocks from the left, bit [row] the [row]-th row of blocks
    from the top. *)
Definition glyph_lit (char_data : list Z) (j row : Z) : bool :=
  match getitem char_data j with
  | Some bits => negb (Z.land bits (Z.shiftl 1 row) =? 0)
  | None => false
  end.

(** Pixel [(px, py)] belongs to a lit block of the glyph drawn at [(x, y)]
    with blocks of [scale] by [scale] pixels. *)
Definition glyph_covers (char_data : list Z) (x y scale px py : Z) : bool :=
  (x <=? px) && (px <? x + 8 * scale) && ((y <=? py) && (py <? y + 8 * scale))
  && glyph_lit char_data ((px - x) / scale) ((py - y) / scale).

(** Pixel [(px, py)] belongs to a lit block of one of the numbered
    characters, character [i] being drawn at [x + i * 8 * scale]. *)
Definition text_covers (FONT_8X8 : gmap ascii (list Z)) (chars : list (Z * ascii))
           (x y scale px py : Z) : bool :=
  existsb (fun '(i, c) => glyph_covers (glyph_of FONT_8X8 c) (x + i * (8 * scale)) y scale px py)
          chars.

(** On a supported session [c] returns, gives the plane bits [ink] to the
    canvas pixels [covers] selects and leaves the plane bits of the others
    as they were. *)
Definition paints (covers : Z -> Z -> bool) (ink : bool * bool) (c : M unit) : Prop :=
  forall self,
    supported self ->
    exists self',
      c self = Ok tt self' /\
      same_shape self self' /\
      forall px py,
        in_canvas self px py = true ->
        plane_bits self' px py = if covers px py then Some ink else plane_bits self px py.

(** ** The demonstration script (example_ssd1681.py) *)

Section Demo.

Variable FONT_8X8 : gmap ascii (list Z).

Definition draw_demo_content : M unit :=
  (clear ;;
   text FONT_8X8 "HELLO WORLD!" 10 10 COLOR_BLACK 2 ;;
   text FONT_8X8 "SSD1681: OK" 10 40 COLOR_BLACK 2 ;;
   text FONT_8X8 "TEMP: 25.3 C" 10 100 COLOR_RED 2 ;;
   for_each (range_from 10 30) (fun x =>
     for_each (range_from 130 150) (fun y => pixel x y COLOR_BLACK)) ;;
   for_each (range_from 35 55) (fun x =>
     for_each (range_from 130 150) (fun y => pixel x y COLOR_RED)) ;;
   (let cross_center_x := 175 in
    let cross_center_y := 175 in
    let cross_size := 15 in
    for_each (range_from (cross_center_x - cross_size) (cross_center_x + cross_size + 1))
             (fun x => pixel x cross_center_y COLOR_BLACK) ;;
    for_each (range_from (cross_center_y - cross_size) (cross_center_y + cross_size + 1))
             (fun y => pixel cross_center_x y COLOR_RED) ;;
    text FONT_8X8 "BYE WORLD!" 10 180 COLOR_RED 1))%py.

(** [main], without its [print]s.  Both displays are built on the same
    pins and bus: the second one starts from the board the first one left.
    [None] is running out of fuel in a busy-wait. *)
Definition main (fuel : nat) (bd : Board) : option (outcome unit) :=
  let display := create_display bd ORIENTATION_0 200 200 in
  display ← init fuel display;
  match draw_demo_content display with
  | Raised e display => Some (Raised e display)
  | Ok _ display =>
    display ← show fuel display;
    let bd := sleep_ms 20000 (board display) in
    let display := create_display bd ORIENTATION_90 200 200 in
    display ← init fuel display;
    match draw_demo_content display with
    | Raised e display => Some (Raised e display)
    | Ok _ display =>
      display ← show fuel display;
      let display := on_board (sleep_ms 2000) display in
      Some (Ok tt (sleep display))
    end
  end.

End Demo.

(** * Properties *)

(** ** Subscripts *)

Lemma py_index_in_range (n : nat) (i : Z) :
  0 <= i < Z.of_nat n -> py_index n i = Some (Z.to_nat i).
Proof.
  intros Hi. unfold py_index.
  destruct (0 <=? i) eqn:H0; [| lia].
  destruct (i <? Z.of_nat n) eqn:H1; [reflexivity | lia].
Qed.

Lemma py_index_above (n : nat) (i : Z) : Z.of_nat n <= i -> py_index n i = None.
Proof.
  intros Hi. unfold py_index.
  destruct (i <? Z.of_nat n) eqn:H1; [lia |].
  rewrite andb_false_r.
  destruct (i <? 0) eqn:H2; [lia |]. now rewrite andb_false_r.
Qed.

Lemma getitem_in_range (b : list Z) (i : Z) :
  0 <= i < Z.of_nat (length b) -> getitem b i = b !! Z.to_nat i.
Proof. intros Hi. unfold getitem. now rewrite py_index_in_range. Qed.

Lemma setitem_in_range (b : list Z) (i v : Z) :
  0 <= i < Z.of_nat (length b) -> setitem b i v = Some (<[Z.to_nat i := v]> b).
Proof. intros Hi. unfold setitem. now rewrite py_index_in_range. Qed.

Lemma setitem_length (b b' : list Z) (i v : Z) :
  setitem b i v = Some b' -> length b' = length b.
Proof.
  unfold setitem. destruct (py_index (length b) i); [| discriminate].
  intros [= <-]. apply length_insert.
Qed.

(** ** Masks *)

Lemma bit_mask_cases (k : Z) :
  0 <= k < 8 ->
  Z.shiftr 0x80 k = 2 ^ (7 - k) /\ 0 <= 7 - k.
Proof.
  intros Hk.
  assert (k = 0 \/ k = 1 \/ k = 2 \/ k = 3 \/ k = 4 \/ k = 5 \/ k = 6 \/ k = 7) as Hc by lia.
  split; [| lia].
  destruct Hc as [-> | [-> | [-> | [-> | [-> | [-> | [-> | ->]]]]]]]; reflexivity.
Qed.

Lemma set_bit_reads_one (old k : Z) :
  0 <= k < 8 -> (Z.land (Z.lor old (Z.shiftr 0x80 k)) (Z.shiftr 0x80 k) =? 0) = false.
Proof.
  intros Hk. destruct (bit_mask_cases k Hk) as [-> Hn].
  apply Z.eqb_neq. intros H.
  apply (f_equal (fun v => Z.testbit v (7 - k))) in H.
  rewrite Z.land_spec, Z.lor_spec, Z.pow2_bits_true, Z.bits_0 in H by assumption.
  now rewrite orb_true_r in H.
Qed.

Lemma cleared_bit_reads_zero (old k : Z) :
  0 <= k < 8 ->
  (Z.land (Z.land old (Z.lnot (Z.shiftr 0x80 k))) (Z.shiftr 0x80 k) =? 0) = true.
Proof.
  intros Hk. apply Z.eqb_eq.
  rewrite <- Z.land_assoc, (Z.land_comm (Z.lnot _)), Z.land_lnot_diag.
  apply Z.land_0_r.
Qed.

(** ** The monad *)

Lemma bind_ok {A B} (c : M A) (k : A -> M B) (self self' : SSD1681) (a : A) :
  c self = Ok a self' -> bind c k self = k a self'.
Proof. intros H. unfold bind. now rewrite H. Qed.

Lemma bind_raised {A B} (c : M A) (k : A -> M B) (self self' : SSD1681) (e : exn) :
  c self = Raised e self' -> bind c k self = Raised e self'.
Proof. intros H. unfold bind. now rewrite H. Qed.

(** ** Writing one pixel of one plane *)

Lemma map_coordinates_bit (self : SSD1681) (x y : Z) :
  0 <= (_map_coordinates self x y).2 < 8.
Proof.
  unfold _map_coordinates. destruct (hw_coordinates self x y) as [hw_x hw_y].
  simpl. apply Z.mod_pos_bound. lia.
Qed.

Lemma map_coordinates_set_plane (p : plane) (b : list Z) (self : SSD1681) (x y : Z) :
  _map_coordinates (set_plane p b self) x y = _map_coordinates self x y.
Proof. destruct p; reflexivity. Qed.

Lemma set_pixel_buffer_outside (x y : Z) (p : plane) (value : bool) (self : SSD1681) :
  in_canvas self x y = false -> _set_pixel_buffer x y p value self = Ok tt self.
Proof. intros H. unfold _set_pixel_buffer. now rewrite H. Qed.

(** Inside the canvas and with the byte inside the plane, the write
    replaces that byte. *)
Lemma set_pixel_buffer_inside (x y : Z) (p : plane) (value : bool) (self : SSD1681)
      (old : Z) :
  in_canvas self x y = true ->
  0 <= (_map_coordinates self x y).1 ->
  get_plane p self !! Z.to_nat (_map_coordinates self x y).1 = Some old ->
  _set_pixel_buffer x y p value self =
  Ok tt (set_plane p
           (<[Z.to_nat (_map_coordinates self x y).1 :=
                if value then Z.lor old (Z.shiftr 0x80 (_map_coordinates self x y).2)
                else Z.land old (Z.lnot (Z.shiftr 0x80 (_map_coordinates self x y).2))]>
              (get_plane p self))
           self).
Proof.
  intros Hin Hnn Hold. unfold _set_pixel_buffer. rewrite Hin. simpl.
  destruct (_map_coordinates self x y) as [byte_index bit_index]. simpl in *.
  assert (0 <= byte_index < Z.of_nat (length (get_plane p self))) as Hr.
  { apply lookup_lt_Some in Hold. lia. }
  assert (load p byte_index self = Ok old self) as Hload.
  { unfold load. now rewrite getitem_in_range, Hold. }
  destruct value; rewrite (bind_ok _ _ _ _ _ Hload); unfold store;
    now rewrite setitem_in_range.
Qed.

(** With the byte outside the plane, the write raises [IndexError]. *)
Lemma set_pixel_buffer_beyond (x y : Z) (p : plane) (value : bool) (self : SSD1681) :
  in_canvas self x y = true ->
  Z.of_nat (length (get_plane p self)) <= (_map_coordinates self x y).1 ->
  _set_pixel_buffer x y p value self = Raised IndexError self.
Proof.
  intros Hin Hge. unfold _set_pixel_buffer. rewrite Hin. simpl.
  destruct (_map_coordinates self x y) as [byte_index bit_index]. simpl in *.
  assert (load p byte_index self = Raised IndexError self) as Hload.
  { unfold load, getitem. now rewrite py_index_above. }
  destruct value; now rewrite (bind_raised _ _ _ _ _ Hload).
Qed.

(** ** Where the mapping lands *)

Lemma in_canvas_true (self : SSD1681) (x y : Z) :
  in_canvas self x y = true <-> (0 <= x < width self) /\ (0 <= y < height self).
Proof. unfold in_canvas. rewrite !andb_true_iff. lia. Qed.

Lemma in_canvas_set_plane (p : plane) (b : list Z) (self : SSD1681) (x y : Z) :
  in_canvas (set_plane p b self) x y = in_canvas self x y.
Proof. destruct p; reflexivity. Qed.

(** Each orientation sends the canvas into one of the two rectangles. *)
Lemma hw_coordinates_cases (self : SSD1681) (x y : Z) :
  in_canvas self x y = true ->
  let hw := hw_coordinates self x y in
  ((orientation self = ORIENTATION_90 \/ orientation self = ORIENTATION_270) /\
   (0 <= hw.1 < height self) /\ (0 <= hw.2 < width self)) \/
  (~ (orientation self = ORIENTATION_90 \/ orientation self = ORIENTATION_270) /\
   (0 <= hw.1 < width self) /\ (0 <= hw.2 < height self)).
Proof.
  intros Hin%in_canvas_true. unfold hw_coordinates.
  unfold ORIENTATION_0, ORIENTATION_90, ORIENTATION_180, ORIENTATION_270.
  destruct (orientation self =? 0) eqn:E0; [simpl; right; lia |].
  destruct (orientation self =? 1) eqn:E1; [simpl; left; lia |].
  destruct (orientation self =? 2) eqn:E2; [simpl; right; lia |].
  destruct (orientation self =? 3) eqn:E3; [simpl; left; lia |].
  simpl; right; lia.
Qed.

Lemma map_coordinates_byte_nonneg (self : SSD1681) (x y : Z) :
  in_canvas self x y = true -> 0 <= (_map_coordinates self x y).1.
Proof.
  intros Hin. pose proof (hw_coordinates_cases self x y Hin) as Hc.
  apply in_canvas_true in Hin.
  unfold _map_coordinates. destruct (hw_coordinates self x y) as [hw_x hw_y].
  simpl in *. apply Z.div_pos; [| lia].
  destruct Hc as [(_ & Hx & Hy) | (_ & Hx & Hy)]; nia.
Qed.

(** ** Writing one pixel of both planes *)

Lemma read_bit_insert (b : list Z) (i k v : Z) :
  0 <= i < Z.of_nat (length b) ->
  read_bit (<[Z.to_nat i := v]> b) i k = Some (negb (Z.land v (Z.shiftr 0x80 k) =? 0)).
Proof.
  intros Hi. unfold read_bit.
  rewrite getitem_in_range by (rewrite length_insert; lia).
  rewrite list_lookup_insert_eq by lia. reflexivity.
Qed.

(** The two writes of [pixel] for a colour that asks for primary bit [v1]
    and accent bit [v2]. *)
Lemma pixel_pair_inside (x y : Z) (v1 v2 : bool) (self : SSD1681) :
  planes_allocated self ->
  in_canvas self x y = true ->
  (_map_coordinates self x y).1 < _buffer_size self ->
  exists self',
    bind (_set_pixel_buffer x y Primary v1) (fun _ => _set_pixel_buffer x y Accent v2) self
    = Ok tt self' /\
    same_shape self self' /\
    plane_bits self' x y = Some (v1, v2).
Proof.
  intros [Hb Hr] Hin Hlt.
  pose proof (map_coordinates_byte_nonneg self x y Hin) as Hnn.
  pose proof (map_coordinates_bit self x y) as Hbit.
  destruct (_map_coordinates self x y) as [byte_index bit_index] eqn:Hmap.
  simpl in Hlt, Hnn, Hbit.
  assert (Z.to_nat byte_index < length (buffer self))%nat as H1 by lia.
  assert (Z.to_nat byte_index < length (red_buffer self))%nat as H2 by lia.
  destruct (lookup_lt_is_Some_2 _ _ H1) as [old1 Hold1].
  destruct (lookup_lt_is_Some_2 _ _ H2) as [old2 Hold2].
  pose proof (set_pixel_buffer_inside x y Primary v1 self old1 Hin) as W1.
  rewrite Hmap in W1. cbn [fst snd get_plane] in W1. specialize (W1 Hnn Hold1).
  match type of W1 with
  | _ = Ok tt ?self1 =>
    pose proof (set_pixel_buffer_inside x y Accent v2 self1 old2) as W2
  end.
  rewrite in_canvas_set_plane, map_coordinates_set_plane, Hmap in W2.
  cbn [fst snd] in W2. specialize (W2 Hin Hnn Hold2).
  eexists. split; [| split].
  - rewrite (bind_ok _ _ _ _ _ W1). exact W2.
  - unfold same_shape. simpl. rewrite !length_insert. tauto.
  - unfold plane_bits. rewrite !map_coordinates_set_plane, Hmap. simpl.
    rewrite !read_bit_insert by lia. simpl.
    destruct v1, v2;
      rewrite ?set_bit_reads_one, ?cleared_bit_reads_zero by assumption; reflexivity.
Qed.

Lemma pixel_pair_outside (x y : Z) (v1 v2 : bool) (self : SSD1681) :
  in_canvas self x y = false ->
  bind (_set_pixel_buffer x y Primary v1) (fun _ => _set_pixel_buffer x y Accent v2) self
  = Ok tt self.
Proof.
  intros Hout.
  rewrite (bind_ok _ _ _ _ _ (set_pixel_buffer_outside x y Primary v1 self Hout)).
  now apply set_pixel_buffer_outside.
Qed.

Lemma pixel_pair_beyond (x y : Z) (v1 v2 : bool) (self : SSD1681) :
  in_canvas self x y = true ->
  Z.of_nat (length (buffer self)) <= (_map_coordinates self x y).1 ->
  bind (_set_pixel_buffer x y Primary v1) (fun _ => _set_pixel_buffer x y Accent v2) self
  = Raised IndexError self.
Proof.
  intros Hin Hge. apply bind_raised. now apply set_pixel_buffer_beyond.
Qed.

(** [pixel] is one of the three pairs of writes, or nothing. *)
Lemma pixel_unfold (x y color : Z) (self : SSD1681) :
  (color = COLOR_WHITE /\
   pixel x y color self =
   bind (_set_pixel_buffer x y Primary true)
        (fun _ => _set_pixel_buffer x y Accent false) self) \/
  (color = COLOR_BLACK /\
   pixel x y color self =
   bind (_set_pixel_buffer x y Primary false)
        (fun _ => _set_pixel_buffer x y Accent false) self) \/
  (color = COLOR_RED /\
   pixel x y color self =
   bind (_set_pixel_buffer x y Primary true)
        (fun _ => _set_pixel_buffer x y Accent true) self) \/
  (color <> COLOR_WHITE /\ color <> COLOR_BLACK /\ color <> COLOR_RED /\
   pixel x y color self = Ok tt self).
Proof.
  unfold pixel, COLOR_WHITE, COLOR_BLACK, COLOR_RED.
  destruct (color =? 0) eqn:E0; [left; split; [lia | reflexivity] |].
  destruct (color =? 1) eqn:E1; [right; left; split; [lia | reflexivity] |].
  destruct (color =? 2) eqn:E2; [right; right; left; split; [lia | reflexivity] |].
  right; right; right. repeat split; try lia.
Qed.

Lemma pixel_inside (x y color : Z) (self : SSD1681) :
  planes_allocated self ->
  in_canvas self x y = true ->
  (_map_coordinates self x y).1 < _buffer_size self ->
  exists self', pixel x y color self = Ok tt self' /\ same_shape self self'.
Proof.
  intros Ha Hin Hlt.
  destruct (pixel_unfold x y color self) as [[_ ->] | [[_ ->] | [[_ ->] | (_ & _ & _ & ->)]]].
  - destruct (pixel_pair_inside x y true false self Ha Hin Hlt) as (s & ? & ? & _); eauto.
  - destruct (pixel_pair_inside x y false false self Ha Hin Hlt) as (s & ? & ? & _); eauto.
  - destruct (pixel_pair_inside x y true true self Ha Hin Hlt) as (s & ? & ? & _); eauto.
  - exists self. split; [reflexivity |]. unfold same_shape. tauto.
Qed.

(** A known colour, a pixel inside the canvas, a byte beyond the plane:
    [IndexError], and nothing written. *)
Lemma pixel_beyond (x y color : Z) (self : SSD1681) :
  color = COLOR_WHITE \/ color = COLOR_BLACK \/ color = COLOR_RED ->
  in_canvas self x y = true ->
  Z.of_nat (length (buffer self)) <= (_map_coordinates self x y).1 ->
  pixel x y color self = Raised IndexError self.
Proof.
  intros Hc Hin Hge.
  destruct (pixel_unfold x y color self)
    as [[_ ->] | [[_ ->] | [[_ ->] | (Hw & Hb & Hr & _)]]];
    try (now apply pixel_pair_beyond).
  destruct Hc as [Hc | [Hc | Hc]]; contradiction.
Qed.

Lemma same_shape_well_formed (s s' : SSD1681) :
  same_shape s s' -> well_formed s -> well_formed s'.
Proof.
  unfold same_shape, well_formed, planes_allocated.
  intros (_ & Hw & Hh & _ & Hsize & Hb & Hr) (Hs & Hlb & Hlr).
  rewrite Hw, Hh, Hsize, Hb, Hr. tauto.
Qed.

(** ** The orientation table *)

Lemma hw_coordinates_unfold (self : SSD1681) (x y : Z) :
  (orientation self = ORIENTATION_90 /\
   hw_coordinates self x y = (y, width self - 1 - x)) \/
  (orientation self = ORIENTATION_180 /\
   hw_coordinates self x y = (x, y)) \/
  (orientation self = ORIENTATION_270 /\
   hw_coordinates self x y = (height self - 1 - y, x)) \/
  (orientation self <> ORIENTATION_90 /\ orientation self <> ORIENTATION_180 /\
   orientation self <> ORIENTATION_270 /\
   hw_coordinates self x y = (width self - 1 - x, height self - 1 - y)).
Proof.
  unfold hw_coordinates, ORIENTATION_0, ORIENTATION_90, ORIENTATION_180, ORIENTATION_270.
  destruct (orientation self =? 0) eqn:E0; [right; right; right; repeat split; lia |].
  destruct (orientation self =? 1) eqn:E1; [left; split; [lia | reflexivity] |].
  destruct (orientation self =? 2) eqn:E2; [right; left; split; [lia | reflexivity] |].
  destruct (orientation self =? 3) eqn:E3; [right; right; left; split; [lia | reflexivity] |].
  right; right; right. repeat split; lia.
Qed.

Lemma hw_coordinates_in_grid (self : SSD1681) (x y : Z) :
  square_for_quarter_turns self ->
  in_canvas self x y = true ->
  in_grid self (hw_coordinates self x y).
Proof.
  intros Hsq Hin. unfold in_grid.
  destruct (hw_coordinates_cases self x y Hin) as [(Ho & Hx & Hy) | (_ & Hx & Hy)].
  - rewrite (Hsq Ho) in *. tauto.
  - tauto.
Qed.

Lemma hw_coordinates_injective (self : SSD1681) (x y x' y' : Z) :
  hw_coordinates self x y = hw_coordinates self x' y' -> x = x' /\ y = y'.
Proof.
  destruct (hw_coordinates_unfold self x y) as [[Ho ->] | [[Ho ->] | [[Ho ->] | (H1 & H2 & H3 & ->)]]];
    destruct (hw_coordinates_unfold self x' y')
      as [[Ho' ->] | [[Ho' ->] | [[Ho' ->] | (H1' & H2' & H3' & ->)]]];
    unfold ORIENTATION_90, ORIENTATION_180, ORIENTATION_270 in *;
    try lia; intros [= E1 E2]; lia.
Qed.

Lemma hw_coordinates_surjective (self : SSD1681) (hw_x hw_y : Z) :
  square_for_quarter_turns self ->
  in_grid self (hw_x, hw_y) ->
  exists x y, in_canvas self x y = true /\ hw_coordinates self x y = (hw_x, hw_y).
Proof.
  intros Hsq [Hx Hy]. simpl in Hx, Hy.
  destruct (hw_coordinates_unfold self 0 0) as [[Ho _] | [[Ho _] | [[Ho _] | (H1 & H2 & H3 & _)]]].
  - pose proof (Hsq (or_introl Ho)) as Heq.
    exists (width self - 1 - hw_y), hw_x. split; [apply in_canvas_true; lia |].
    destruct (hw_coordinates_unfold self (width self - 1 - hw_y) hw_x)
      as [[_ ->] | [[Ho' _] | [[Ho' _] | (H1 & _)]]];
      unfold ORIENTATION_90, ORIENTATION_180, ORIENTATION_270 in *; try lia.
    f_equal; lia.
  - exists hw_x, hw_y. split; [apply in_canvas_true; lia |].
    destruct (hw_coordinates_unfold self hw_x hw_y)
      as [[Ho' _] | [[_ ->] | [[Ho' _] | (_ & H2 & _)]]];
      unfold ORIENTATION_90, ORIENTATION_180, ORIENTATION_270 in *; try lia.
    reflexivity.
  - pose proof (Hsq (or_intror Ho)) as Heq.
    exists hw_y, (height self - 1 - hw_x). split; [apply in_canvas_true; lia |].
    destruct (hw_coordinates_unfold self hw_y (height self - 1 - hw_x))
      as [[Ho' _] | [[Ho' _] | [[_ ->] | (_ & _ & H3 & _)]]];
      unfold ORIENTATION_90, ORIENTATION_180, ORIENTATION_270 in *; try lia.
    f_equal; lia.
  - exists (width self - 1 - hw_x), (height self - 1 - hw_y).
    split; [apply in_canvas_true; lia |].
    destruct (hw_coordinates_unfold self (width self - 1 - hw_x) (height self - 1 - hw_y))
      as [[Ho' _] | [[Ho' _] | [[Ho' _] | (_ & _ & _ & ->)]]]; try contradiction.
    f_equal; lia.
Qed.

(** With whole-byte rows the byte of an in-canvas pixel lies in the plane. *)
Lemma byte_index_bound (self : SSD1681) (x y : Z) :
  byte_aligned self ->
  square_for_quarter_turns self ->
  in_canvas self x y = true ->
  (_map_coordinates self x y).1 < width self * height self / 8.
Proof.
  intros Hal Hsq Hin.
  destruct (hw_coordinates_in_grid self x y Hsq Hin) as [Hx Hy].
  unfold _map_coordinates. destruct (hw_coordinates self x y) as [hw_x hw_y].
  simpl in *. unfold byte_aligned in Hal.
  apply Z.mod_divide in Hal; [| lia]. destruct Hal as [q Hq].
  rewrite Hq.
  replace (q * 8 * height self) with (q * height self * 8) by lia.
  rewrite Z.div_mul by lia.
  apply Z.div_lt_upper_bound; [lia |]. nia.
Qed.

(** With whole-byte rows, byte and bit together are the position of the
    cell in row-major order, so distinct pixels get distinct bits. *)
Lemma map_coordinates_linear (self : SSD1681) (x y : Z) :
  byte_aligned self ->
  8 * (_map_coordinates self x y).1 + (_map_coordinates self x y).2
  = (hw_coordinates self x y).2 * width self + (hw_coordinates self x y).1.
Proof.
  unfold byte_aligned, _map_coordinates. intros Hal.
  destruct (hw_coordinates self x y) as [hw_x hw_y]. simpl.
  assert ((hw_y * width self + hw_x) mod 8 = hw_x mod 8) as Hbit.
  { rewrite Z.add_mod, Z.mul_mod, Hal, Z.mul_0_r by lia.
    rewrite Z.mod_0_l, Z.add_0_l, Z.mod_mod by lia. reflexivity. }
  rewrite <- Hbit. symmetry. apply Z.div_mod. lia.
Qed.

Lemma map_coordinates_injective (self : SSD1681) (x y x' y' : Z) :
  byte_aligned self ->
  square_for_quarter_turns self ->
  in_canvas self x y = true ->
  in_canvas self x' y' = true ->
  _map_coordinates self x y = _map_coordinates self x' y' ->
  x = x' /\ y = y'.
Proof.
  intros Hal Hsq Hin Hin' Heq.
  pose proof (map_coordinates_linear self x y Hal) as L.
  pose proof (map_coordinates_linear self x' y' Hal) as L'.
  rewrite Heq in L. rewrite L' in L. clear L' Heq.
  destruct (hw_coordinates_in_grid self x y Hsq Hin) as [Hx Hy].
  destruct (hw_coordinates_in_grid self x' y' Hsq Hin') as [Hx' Hy'].
  apply (hw_coordinates_injective self).
  destruct (hw_coordinates self x y) as [a b].
  destruct (hw_coordinates self x' y') as [a' b']. simpl in *.
  assert (b = b') by nia. subst b'. f_equal. lia.
Qed.

(** ** Pixels: round trip, out-of-canvas calls, unknown colours *)

(** C1, as amended: on an object whose planes have their allocated length,
    for every pixel inside the canvas whose mapped byte index is below the
    plane length, [pixel] returns and the bits read back at the mapped
    byte/bit position are: primary 0 and accent 0 for COLOR_BLACK, primary 1
    and accent 1 for COLOR_RED, primary 1 and accent 0 for COLOR_WHITE. *)
Theorem pixel_round_trip (self : SSD1681) (x y : Z) :
  planes_allocated self ->
  in_canvas self x y = true ->
  (_map_coordinates self x y).1 < _buffer_size self ->
  (exists s, pixel x y COLOR_BLACK self = Ok tt s /\
             plane_bits s x y = Some (false, false)) /\
  (exists s, pixel x y COLOR_RED self = Ok tt s /\
             plane_bits s x y = Some (true, true)) /\
  (exists s, pixel x y COLOR_WHITE self = Ok tt s /\
             plane_bits s x y = Some (true, false)).
Proof.
  intros Ha Hin Hlt. split; [| split].
  - destruct (pixel_pair_inside x y false false self Ha Hin Hlt) as (s & Hs & _ & Hbits).
    exists s. split; [exact Hs | exact Hbits].
  - destruct (pixel_pair_inside x y true true self Ha Hin Hlt) as (s & Hs & _ & Hbits).
    exists s. split; [exact Hs | exact Hbits].
  - destruct (pixel_pair_inside x y true false self Ha Hin Hlt) as (s & Hs & _ & Hbits).
    exists s. split; [exact Hs | exact Hbits].
Qed.

Lemma pixel_round_trip_witness :
  let self := create_display idle_board ORIENTATION_0 200 200 in
  (exists s, pixel 0 0 COLOR_BLACK self = Ok tt s /\
             plane_bits s 0 0 = Some (false, false)) /\
  (exists s, pixel 0 0 COLOR_RED self = Ok tt s /\
             plane_bits s 0 0 = Some (true, true)) /\
  (exists s, pixel 0 0 COLOR_WHITE self = Ok tt s /\
             plane_bits s 0 0 = Some (true, false)).
Proof.
  apply (pixel_round_trip (create_display idle_board ORIENTATION_0 200 200) 0 0).
  - split; vm_compute; reflexivity.
  - reflexivity.
  - vm_compute; reflexivity.
Defined.

(** C1 as stated fails: on a 3x3 panel the planes hold one byte, the
    in-canvas pixel (0, 0) maps to byte 1, and [pixel] raises [IndexError]
    with nothing to read back. *)
Lemma pixel_round_trip_fails_on_3x3 :
  let self := create_display idle_board ORIENTATION_0 3 3 in
  well_formed self /\
  in_canvas self 0 0 = true /\
  _map_coordinates self 0 0 = (1, 2) /\
  length (buffer self) = 1%nat /\
  pixel 0 0 COLOR_BLACK self = Raised IndexError self /\
  plane_bits self 0 0 = None.
Proof. vm_compute. repeat split; reflexivity. Qed.

(** C4: for every coordinate outside the canvas and every colour value,
    [pixel] returns without raising and leaves the object, both planes
    included, as it was. *)
Theorem pixel_outside_is_noop (self : SSD1681) (x y color : Z) :
  in_canvas self x y = false ->
  pixel x y color self = Ok tt self.
Proof.
  intros Hout.
  destruct (pixel_unfold x y color self) as [[_ ->] | [[_ ->] | [[_ ->] | (_ & _ & _ & ->)]]];
    try reflexivity; now apply pixel_pair_outside.
Qed.

Lemma pixel_outside_is_noop_witness :
  let self := create_display idle_board ORIENTATION_0 200 200 in
  pixel (-1) 0 COLOR_BLACK self = Ok tt self.
Proof.
  apply (pixel_outside_is_noop (create_display idle_board ORIENTATION_0 200 200) (-1) 0 COLOR_BLACK).
  reflexivity.
Defined.

(** C10: for every coordinate and every colour value other than
    COLOR_WHITE, COLOR_BLACK and COLOR_RED, [pixel] returns without raising
    and leaves the object, both planes included, as it was. *)
Theorem pixel_unknown_color_is_noop (self : SSD1681) (x y color : Z) :
  color <> COLOR_WHITE -> color <> COLOR_BLACK -> color <> COLOR_RED ->
  pixel x y color self = Ok tt self.
Proof.
  intros Hw Hb Hr.
  destruct (pixel_unfold x y color self) as [[? _] | [[? _] | [[? _] | (_ & _ & _ & ->)]]];
    try contradiction; reflexivity.
Qed.

Lemma pixel_unknown_color_is_noop_witness :
  let self := create_display idle_board ORIENTATION_0 200 200 in
  pixel 10 20 7 self = Ok tt self.
Proof.
  apply (pixel_unknown_color_is_noop (create_display idle_board ORIENTATION_0 200 200) 10 20 7);
    discriminate.
Defined.

(** ** The coordinate map *)

(** C3: when the panel is square for the two quarter-turn orientations
    (any panel for the others, unknown orientation values included), the map
    from canvas coordinates to [(hw_x, hw_y)] sends the canvas into the
    physical grid, sends distinct coordinates to distinct cells, and reaches
    every cell of the grid. *)
Theorem hw_coordinates_bijection (self : SSD1681) :
  square_for_quarter_turns self ->
  (forall x y, in_canvas self x y = true -> in_grid self (hw_coordinates self x y)) /\
  (forall x y x' y',
      in_canvas self x y = true -> in_canvas self x' y' = true ->
      hw_coordinates self x y = hw_coordinates self x' y' -> x = x' /\ y = y') /\
  (forall hw_x hw_y,
      in_grid self (hw_x, hw_y) ->
      exists x y, in_canvas self x y = true /\ hw_coordinates self x y = (hw_x, hw_y)).
Proof.
  intros Hsq. split; [| split].
  - intros x y Hin. now apply hw_coordinates_in_grid.
  - intros x y x' y' _ _ Heq. now apply (hw_coordinates_injective self).
  - intros hw_x hw_y Hg. now apply hw_coordinates_surjective.
Qed.

Lemma hw_coordinates_bijection_witness :
  let self := create_display idle_board ORIENTATION_90 200 200 in
  (forall x y, in_canvas self x y = true -> in_grid self (hw_coordinates self x y)) /\
  (forall x y x' y',
      in_canvas self x y = true -> in_canvas self x' y' = true ->
      hw_coordinates self x y = hw_coordinates self x' y' -> x = x' /\ y = y') /\
  (forall hw_x hw_y,
      in_grid self (hw_x, hw_y) ->
      exists x y, in_canvas self x y = true /\ hw_coordinates self x y = (hw_x, hw_y)).
Proof.
  apply (hw_coordinates_bijection (create_display idle_board ORIENTATION_90 200 200)).
  intros _. reflexivity.
Defined.

(** C8: on a well-formed object whose width is a multiple of 8 and which is
    square for the quarter-turn orientations, every pixel inside the canvas
    maps to a byte index in [0, width*height/8) and a bit index in [0, 8),
    and the writes of [_set_pixel_buffer] and [pixel] return without an
    [IndexError]. *)
Theorem map_coordinates_in_range (self : SSD1681) (x y : Z) :
  well_formed self ->
  byte_aligned self ->
  square_for_quarter_turns self ->
  in_canvas self x y = true ->
  (0 <= (_map_coordinates self x y).1 < width self * height self / 8) /\
  (0 <= (_map_coordinates self x y).2 < 8) /\
  (forall p value, exists s, _set_pixel_buffer x y p value self = Ok tt s) /\
  (forall color, exists s, pixel x y color self = Ok tt s).
Proof.
  intros [Hsize Ha] Hal Hsq Hin.
  pose proof (byte_index_bound self x y Hal Hsq Hin) as Hlt.
  pose proof (map_coordinates_byte_nonneg self x y Hin) as Hnn.
  split; [lia |]. split; [apply map_coordinates_bit |]. split.
  - intros p value.
    assert (Z.to_nat (_map_coordinates self x y).1 < length (get_plane p self))%nat as Hk.
    { destruct Ha as [Hb Hr]. destruct p; simpl; lia. }
    destruct (lookup_lt_is_Some_2 _ _ Hk) as [old Hold].
    eexists. now apply (set_pixel_buffer_inside x y p value self old).
  - intros color.
    destruct (pixel_inside x y color self Ha Hin) as (s & Hs & _); [lia |].
    now exists s.
Qed.

Lemma map_coordinates_in_range_witness :
  let self := create_display idle_board ORIENTATION_270 200 200 in
  (0 <= (_map_coordinates self 199 0).1 < width self * height self / 8) /\
  (0 <= (_map_coordinates self 199 0).2 < 8) /\
  (forall p value, exists s, _set_pixel_buffer 199 0 p value self = Ok tt s) /\
  (forall color, exists s, pixel 199 0 color self = Ok tt s).
Proof.
  apply (map_coordinates_in_range (create_display idle_board ORIENTATION_270 200 200) 199 0).
  - repeat split; vm_compute; reflexivity.
  - reflexivity.
  - intros _. reflexivity.
  - reflexivity.
Defined.

(** ** Filling a plane *)

Lemma set_plane_get_plane (p : plane) (self : SSD1681) :
  set_plane p (get_plane p self) self = self.
Proof. destruct self, p; reflexivity. Qed.

Lemma set_plane_twice (p : plane) (b b' : list Z) (self : SSD1681) :
  set_plane p b' (set_plane p b self) = set_plane p b' self.
Proof. destruct p; reflexivity. Qed.

Lemma get_plane_set_plane (p : plane) (b : list Z) (self : SSD1681) :
  get_plane p (set_plane p b self) = b.
Proof. destruct p; reflexivity. Qed.

Lemma seqZ_to_nat (m n : Z) : seqZ m n = seqZ m (Z.of_nat (Z.to_nat n)).
Proof. unfold seqZ. now rewrite Nat2Z.id. Qed.

(** Storing [v] at the positions of [todo], one after the other, from the
    left: the loop body of [clear] run over the rest of a plane. *)
Lemma fill_plane (p : plane) (v : Z) (todo : list Z) :
  forall (done : list Z) (self : SSD1681),
    get_plane p self = done ++ todo ->
    for_each (seqZ (Z.of_nat (length done)) (Z.of_nat (length todo)))
             (fun i => store p i v) self
    = Ok tt (set_plane p (done ++ replicate (length todo) v) self).
Proof.
  induction todo as [| a todo IH]; intros done self Hb.
  - simpl. rewrite app_nil_r in *. rewrite <- Hb, set_plane_get_plane. reflexivity.
  - rewrite seqZ_cons by (simpl; lia). cbn [for_each].
    assert (store p (Z.of_nat (length done)) v self
            = Ok tt (set_plane p (done ++ v :: todo) self)) as Hst.
    { unfold store. rewrite Hb, setitem_in_range.
      - rewrite Nat2Z.id, insert_app_r_alt, Nat.sub_diag by lia. reflexivity.
      - rewrite length_app. simpl. lia. }
    rewrite (bind_ok _ _ _ _ _ Hst).
    replace (Z.succ (Z.of_nat (length done))) with (Z.of_nat (length (done ++ [v])))
      by (rewrite length_app; simpl; lia).
    replace (Z.pred (Z.of_nat (length (a :: todo)))) with (Z.of_nat (length todo))
      by (simpl; lia).
    rewrite (IH (done ++ [v])).
    + rewrite set_plane_twice, <- app_assoc. reflexivity.
    + rewrite get_plane_set_plane, <- app_assoc. reflexivity.
Qed.

Lemma fill_whole_plane (p : plane) (v n : Z) (self : SSD1681) :
  length (get_plane p self) = Z.to_nat n ->
  for_each (range n) (fun i => store p i v) self
  = Ok tt (set_plane p (replicate (Z.to_nat n) v) self).
Proof.
  intros Hlen. unfold range. rewrite seqZ_to_nat, <- Hlen.
  apply (fill_plane p v (get_plane p self) [] self). reflexivity.
Qed.

Lemma clear_result (self : SSD1681) :
  planes_allocated self ->
  clear self =
  Ok tt (set_plane Accent (replicate (Z.to_nat (_buffer_size self)) 0x00)
           (set_plane Primary (replicate (Z.to_nat (_buffer_size self)) 0xFF) self)).
Proof.
  intros [Hb Hr]. unfold clear.
  rewrite (bind_ok _ _ _ _ _ (fill_whole_plane Primary 0xFF _ self Hb)).
  apply (fill_whole_plane Accent 0x00). exact Hr.
Qed.

(** C5: whatever the planes hold, on an object whose planes have their
    allocated length [clear] returns, leaves 0xFF in every byte of the
    primary plane and 0x00 in every byte of the accent plane, changes
    nothing else, and a second [clear] returns the very same object. *)
Theorem clear_resets_planes (self : SSD1681) :
  planes_allocated self ->
  exists s,
    clear self = Ok tt s /\
    buffer s = replicate (length (buffer self)) 0xFF /\
    red_buffer s = replicate (length (red_buffer self)) 0x00 /\
    (forall k v, buffer s !! k = Some v -> v = 0xFF) /\
    (forall k v, red_buffer s !! k = Some v -> v = 0x00) /\
    same_shape self s /\
    clear s = Ok tt s.
Proof.
  intros Ha. pose proof Ha as [Hb Hr].
  eexists. split; [apply clear_result; exact Ha |].
  split; [simpl; now rewrite Hb |].
  split; [simpl; now rewrite Hr |].
  split; [simpl; intros k v Hk; now apply lookup_replicate_1 in Hk |].
  split; [simpl; intros k v Hk; now apply lookup_replicate_1 in Hk |].
  split.
  - unfold same_shape. simpl. rewrite !length_replicate. now rewrite Hb, Hr.
  - rewrite clear_result; [reflexivity |].
    split; simpl; apply length_replicate.
Qed.

Lemma clear_resets_planes_witness :
  let self := mkSSD1681 idle_board 8 2 ORIENTATION_0 2 [0x12; 0x34] [0xAB; 0xCD] in
  exists s,
    clear self = Ok tt s /\
    buffer s = replicate (length (buffer self)) 0xFF /\
    red_buffer s = replicate (length (red_buffer self)) 0x00 /\
    (forall k v, buffer s !! k = Some v -> v = 0xFF) /\
    (forall k v, red_buffer s !! k = Some v -> v = 0x00) /\
    same_shape self s /\
    clear s = Ok tt s.
Proof.
  apply (clear_resets_planes (mkSSD1681 idle_board 8 2 ORIENTATION_0 2 [0x12; 0x34] [0xAB; 0xCD])).
  split; reflexivity.
Defined.

(** ** What the drawing code leaves alone *)

Lemma same_shape_refl (s : SSD1681) : same_shape s s.
Proof. unfold same_shape. tauto. Qed.

Lemma same_shape_trans (s1 s2 s3 : SSD1681) :
  same_shape s1 s2 -> same_shape s2 s3 -> same_shape s1 s3.
Proof. unfold same_shape. intuition congruence. Qed.

Lemma preserves_ret {A} (a : A) : preserves_shape (ret a).
Proof. intros self. apply same_shape_refl. Qed.

Lemma preserves_raise {A} (e : exn) : preserves_shape (@raise A e).
Proof. intros self. apply same_shape_refl. Qed.

Lemma preserves_bind {A B} (c : M A) (k : A -> M B) :
  preserves_shape c -> (forall a, preserves_shape (k a)) -> preserves_shape (bind c k).
Proof.
  intros Hc Hk self. unfold bind. specialize (Hc self).
  destruct (c self) as [a s | e s]; simpl in *.
  - eapply same_shape_trans; [exact Hc | apply Hk].
  - exact Hc.
Qed.

Lemma preserves_for_each {A} (items : list A) (body : A -> M unit) :
  (forall i, preserves_shape (body i)) -> preserves_shape (for_each items body).
Proof.
  intros Hbody. induction items as [| i rest IH]; simpl.
  - apply preserves_ret.
  - apply preserves_bind; [apply Hbody | intros _; exact IH].
Qed.

Lemma preserves_load (p : plane) (i : Z) : preserves_shape (load p i).
Proof.
  intros self. unfold load. destruct (getitem _ _); apply same_shape_refl.
Qed.

Lemma preserves_store (p : plane) (i v : Z) : preserves_shape (store p i v).
Proof.
  intros self. unfold store.
  destruct (setitem _ _ _) as [b |] eqn:Hs; [| apply same_shape_refl].
  apply setitem_length in Hs. unfold same_shape. destruct p; simpl in *; tauto.
Qed.

Lemma preserves_set_pixel_buffer (x y : Z) (p : plane) (value : bool) :
  preserves_shape (_set_pixel_buffer x y p value).
Proof.
  intros self. unfold _set_pixel_buffer.
  destruct (negb (in_canvas self x y)); [apply same_shape_refl |].
  destruct (_map_coordinates self x y) as [byte_index bit_index].
  destruct value; apply preserves_bind;
    try apply preserves_load; intros old; apply preserves_store.
Qed.

Lemma preserves_pixel (x y color : Z) : preserves_shape (pixel x y color).
Proof.
  unfold pixel.
  repeat match goal with |- context [if ?c then _ else _] => destruct c end;
    try apply preserves_ret;
    apply preserves_bind; try (intros _); apply preserves_set_pixel_buffer.
Qed.

Lemma preserves_clear : preserves_shape clear.
Proof.
  intros self. unfold clear.
  apply preserves_bind; [| intros _];
    apply preserves_for_each; intros i; apply preserves_store.
Qed.

Lemma preserves_draw_char (FONT_8X8 : gmap ascii (list Z)) (char : ascii)
      (x y color font_size : Z) :
  preserves_shape (_draw_char FONT_8X8 char x y color font_size).
Proof.
  unfold _draw_char. destruct (FONT_8X8 !! " "%char); [| apply preserves_raise].
  apply preserves_for_each; intros row.
  apply preserves_for_each; intros col.
  destruct (getitem _ _); [| apply preserves_raise].
  destruct (_ =? 0); [apply preserves_ret |].
  apply preserves_for_each; intros scale_row.
  apply preserves_for_each; intros scale_col.
  apply preserves_pixel.
Qed.

Lemma preserves_text_loop (FONT_8X8 : gmap ascii (list Z)) (chars : list (Z * ascii))
      (x y color font_size char_width : Z) :
  preserves_shape (text_loop FONT_8X8 chars x y color font_size char_width).
Proof.
  induction chars as [| [char_index char] rest IH]; simpl.
  - apply preserves_ret.
  - intros self. destruct (_ >? _); [apply same_shape_refl |].
    apply preserves_bind; [apply preserves_draw_char | intros _; exact IH].
Qed.

Lemma preserves_text (FONT_8X8 : gmap ascii (list Z)) (string : string)
      (x y color font_size : Z) :
  preserves_shape (text FONT_8X8 string x y color font_size).
Proof. apply preserves_text_loop. Qed.

(** ** The busy-wait *)

(** With enough fuel for the time that is left, the loop returns; only the
    clock has moved; it stops on a released busy line or a spent timeout; it
    runs the timeout out when the line is held throughout; and with exact
    sleeps it has polled every 50 ms, finding the line held and time left at
    every poll but the last. *)
Lemma wait_busy_loop_returns (fuel : nat) :
  forall (start timeout_ms : Z) (self : SSD1681),
    (Z.to_nat ((timeout_ms - (ticks (board self) - start) + 49) / 50) + 1 <= fuel)%nat ->
    exists t',
      _wait_busy_loop fuel start timeout_ms self = Some (on_board (set_ticks t') self) /\
      ticks (board self) <= t' /\
      (busy_line (board self) t' = false \/ timeout_ms <= t' - start) /\
      ((forall t, ticks (board self) <= t < start + timeout_ms ->
                  busy_line (board self) t = true) ->
       timeout_ms <= t' - start) /\
      ((forall t, overrun (board self) t = 0%N) ->
       exists polls : nat,
         t' = ticks (board self) + 50 * Z.of_nat polls /\
         forall j : nat,
           (j < polls)%nat ->
           busy_line (board self) (ticks (board self) + 50 * Z.of_nat j) = true /\
           ticks (board self) + 50 * Z.of_nat j - start < timeout_ms).
Proof.
  induction fuel as [| fuel IH]; intros start timeout_ms self Hfuel; [lia |].
  cbn [_wait_busy_loop]. unfold ticks_diff.
  destruct (busy_line (board self) (ticks (board self))) eqn:Hbusy;
    [destruct (ticks (board self) - start <? timeout_ms) eqn:Htime |]; cbn [andb].
  - (* still busy, time left: sleep and poll again *)
    apply Z.ltb_lt in Htime.
    set (late := Z.of_N (overrun (board self) (ticks (board self)))).
    assert (0 <= late) as Hlate by (subst late; lia).
    assert (late = Z.of_N (overrun (board self) (ticks (board self)))) as Hdef by reflexivity.
    clearbody late.
    destruct (IH start timeout_ms (on_board (sleep_ms 50) self))
      as (t' & Hrun & Hle & Hstop & Hheld & Hpolls).
    { cbn [on_board with_board board sleep_ms ticks]. rewrite <- Hdef.
      assert ((timeout_ms - (ticks (board self) + 50 + late - start) + 49) / 50
              <= (timeout_ms - (ticks (board self) - start) + 49) / 50 - 1) as Hq
          by (Z.div_mod_to_equations; lia).
      assert (1 <= (timeout_ms - (ticks (board self) - start) + 49) / 50) as Hq1
          by (Z.div_mod_to_equations; lia).
      lia. }
    cbn [on_board with_board board sleep_ms ticks busy_line overrun] in Hle, Hstop, Hheld, Hpolls.
    rewrite <- Hdef in Hle, Hheld, Hpolls.
    exists t'. split; [rewrite Hrun; destruct self as [[]]; reflexivity |].
    split; [lia |]. split; [exact Hstop |]. split.
    + intros Hall. apply Hheld. intros t Ht. apply Hall. lia.
    + intros Hzero.
      assert (late = 0) as H0 by (rewrite Hdef, Hzero; reflexivity).
      destruct (Hpolls Hzero) as (polls & Ht' & Hbefore).
      exists (S polls). split; [lia |].
      intros [| j] Hj.
      * rewrite Z.mul_0_r, Z.add_0_r. split; [exact Hbusy | exact Htime].
      * destruct (Hbefore j) as [Hb Ht]; [lia |].
        replace (ticks (board self) + 50 * Z.of_nat (S j))
          with (ticks (board self) + 50 + late + 50 * Z.of_nat j) by lia.
        split; [exact Hb | exact Ht].
  - (* still busy, timeout spent *)
    apply Z.ltb_ge in Htime.
    exists (ticks (board self)). split; [destruct self as [[]]; reflexivity |].
    split; [lia |]. split; [right; lia |]. split; [intros _; lia |].
    intros _. exists 0%nat. split; [lia |]. intros j Hj. lia.
  - (* released *)
    exists (ticks (board self)). split; [destruct self as [[]]; reflexivity |].
    split; [lia |]. split; [left; exact Hbusy |]. split.
    + intros Hall.
      destruct (Z_lt_le_dec (ticks (board self) - start) timeout_ms) as [Hlt | Hge]; [| lia].
      rewrite Hall in Hbusy by lia. discriminate.
    + intros _. exists 0%nat. split; [lia |]. intros j Hj. lia.
Qed.

Lemma wait_busy_returns (fuel : nat) (timeout_ms : Z) (self : SSD1681) :
  (polls_needed timeout_ms <= fuel)%nat ->
  exists t',
    _wait_busy fuel timeout_ms self
    = Some (t' - ticks (board self) <? timeout_ms, on_board (set_ticks t') self) /\
    ticks (board self) <= t' /\
    (busy_line (board self) t' = false \/ timeout_ms <= t' - ticks (board self)) /\
    ((forall t, ticks (board self) <= t < ticks (board self) + timeout_ms ->
                busy_line (board self) t = true) ->
     timeout_ms <= t' - ticks (board self)) /\
    ((forall t, overrun (board self) t = 0%N) ->
     exists polls : nat,
       t' = ticks (board self) + 50 * Z.of_nat polls /\
       forall j : nat,
         (j < polls)%nat ->
         busy_line (board self) (ticks (board self) + 50 * Z.of_nat j) = true /\
         50 * Z.of_nat j < timeout_ms).
Proof.
  intros Hfuel. unfold polls_needed in Hfuel.
  destruct (wait_busy_loop_returns fuel (ticks (board self)) timeout_ms self)
    as (t' & Hrun & Hle & Hstop & Hheld & Hpolls).
  { replace (timeout_ms - (ticks (board self) - ticks (board self)) + 49)
      with (timeout_ms + 49) by lia. exact Hfuel. }
  exists t'. split.
  - unfold _wait_busy. rewrite Hrun. reflexivity.
  - split; [exact Hle |]. split; [exact Hstop |]. split; [exact Hheld |].
    intros Hzero. destruct (Hpolls Hzero) as (polls & Ht' & Hbefore).
    exists polls. split; [exact Ht' |].
    intros j Hj. destruct (Hbefore j Hj) as [Hb Ht]. split; [exact Hb | lia].
Qed.

Example default_polls : polls_needed default_timeout_ms = 301%nat.
Proof. reflexivity. Qed.

Example wait_busy_released :
  let self := create_display idle_board ORIENTATION_0 200 200 in
  _wait_busy 1 default_timeout_ms self = Some (true, self).
Proof. reflexivity. Qed.

Example wait_busy_held :
  let self := create_display stuck_board ORIENTATION_0 200 200 in
  _wait_busy 301 default_timeout_ms self = Some (false, on_board (set_ticks 15000) self) /\
  _wait_busy 300 default_timeout_ms self = None.
Proof. split; vm_compute; reflexivity. Qed.

(** ** The busy-wait on the wrapping counter *)

(** Below half a period the wrapping difference of two counter readings is
    the time between them. *)
Lemma ticks_diff_wrapping_small (a b : Z) :
  - (TICKS_PERIOD / 2) <= a - b < TICKS_PERIOD / 2 ->
  ticks_diff_wrapping (a mod TICKS_PERIOD) (b mod TICKS_PERIOD) = a - b.
Proof.
  unfold ticks_diff_wrapping, TICKS_PERIOD.
  change (2 ^ 30) with 1073741824. change (1073741824 / 2) with 536870912.
  intros Hsmall. Z.div_mod_to_equations. lia.
Qed.

Lemma ticks_diff_wrapping_range (a b : Z) :
  - (TICKS_PERIOD / 2) <= ticks_diff_wrapping a b < TICKS_PERIOD / 2.
Proof.
  unfold ticks_diff_wrapping, TICKS_PERIOD.
  change (2 ^ 30) with 1073741824. change (1073741824 / 2) with 536870912.
  Z.div_mod_to_equations. lia.
Qed.

(** While the time spent stays below half a period, the loop on the
    wrapping counter is the loop on the plain clock. *)
Lemma wait_busy_loop_wrapping_agrees (timeout_ms slack : Z) (fuel : nat) :
  timeout_ms + 50 + slack <= TICKS_PERIOD / 2 ->
  forall (start : Z) (self : SSD1681),
    (forall t, Z.of_N (overrun (board self) t) <= slack) ->
    0 <= ticks (board self) - start < TICKS_PERIOD / 2 ->
    _wait_busy_loop_wrapping fuel (start mod TICKS_PERIOD) timeout_ms self
    = _wait_busy_loop fuel start timeout_ms self /\
    (forall self',
        _wait_busy_loop fuel start timeout_ms self = Some self' ->
        0 <= ticks (board self') - start < TICKS_PERIOD / 2).
Proof.
  intros Hbound. induction fuel as [| fuel IH]; intros start self Hlate Hnow.
  - split; [reflexivity | discriminate].
  - cbn [_wait_busy_loop_wrapping _wait_busy_loop]. unfold ticks_ms, ticks_diff.
    rewrite ticks_diff_wrapping_small by lia.
    destruct (busy_line (board self) (ticks (board self))
              && (ticks (board self) - start <? timeout_ms)) eqn:Hcond.
    + apply andb_true_iff in Hcond as [_ Htime%Z.ltb_lt].
      apply IH.
      * exact Hlate.
      * cbn [on_board with_board board sleep_ms ticks].
        specialize (Hlate (ticks (board self))). lia.
    + split; [reflexivity |]. intros self' [= <-]. exact Hnow.
Qed.

Lemma wait_busy_wrapping_agrees (fuel : nat) (timeout_ms slack : Z) (self : SSD1681) :
  (forall t, Z.of_N (overrun (board self) t) <= slack) ->
  timeout_ms + 50 + slack <= TICKS_PERIOD / 2 ->
  _wait_busy_wrapping fuel timeout_ms self = _wait_busy fuel timeout_ms self.
Proof.
  intros Hlate Hbound.
  assert (0 <= slack) as Hslack by (specialize (Hlate 0); lia).
  assert (0 < TICKS_PERIOD / 2) as Hhalf by reflexivity.
  destruct (wait_busy_loop_wrapping_agrees timeout_ms slack fuel Hbound
              (ticks (board self)) self Hlate ltac:(lia)) as [Hloop Hend].
  unfold _wait_busy_wrapping, _wait_busy. cbn zeta.
  change (ticks_ms (board self)) with (ticks (board self) mod TICKS_PERIOD).
  rewrite Hloop.
  destruct (_wait_busy_loop fuel (ticks (board self)) timeout_ms self) as [self' |];
    [| reflexivity].
  cbn [mbind option_bind]. unfold ticks_ms, ticks_diff.
  rewrite ticks_diff_wrapping_small; [reflexivity |].
  specialize (Hend self' eq_refl). lia.
Qed.

(** On the wrapping counter a timeout of half a period or more never
    runs out: on a held busy line the wait does not return. *)
Lemma wait_busy_wrapping_held_forever (fuel : nat) :
  forall (start timeout_ms : Z) (self : SSD1681),
    TICKS_PERIOD / 2 <= timeout_ms ->
    (forall t, busy_line (board self) t = true) ->
    _wait_busy_loop_wrapping fuel start timeout_ms self = None.
Proof.
  induction fuel as [| fuel IH]; intros start timeout_ms self Hbig Hheld; [reflexivity |].
  cbn [_wait_busy_loop_wrapping]. rewrite Hheld.
  pose proof (ticks_diff_wrapping_range (ticks_ms (board self)) start) as Hrange.
  destruct (_ <? _) eqn:E; [| apply Z.ltb_ge in E; lia].
  cbn [andb]. apply IH; [exact Hbig | exact Hheld].
Qed.

(** C9: [_wait_busy] as it runs on MicroPython's wrapping tick counter,
    for a timeout and sleep overruns that keep the wait below half a tick
    period ([timeout_ms + 50 + slack <= TICKS_PERIOD / 2], every overrun at
    most [slack]).  Whatever the busy line does, with fuel for one poll per
    started 50 ms of the timeout and a last one, the wait returns a boolean,
    having moved nothing but the clock, and it is the wait on the plain
    clock; the boolean tells whether the time spent is below the timeout;
    it is true only if the line was seen released, and false when the line
    is held during the whole timeout window.  With exact sleeps the polls
    are 50 ms apart, every poll but the last found the line held with time
    left, and on a line held throughout the call returns between
    [timeout_ms] and [timeout_ms + 50] milliseconds after it started. *)
Theorem wait_busy_terminates (fuel : nat) (timeout_ms slack : Z) (self : SSD1681) :
  (polls_needed timeout_ms <= fuel)%nat ->
  (forall t, Z.of_N (overrun (board self) t) <= slack) ->
  timeout_ms + 50 + slack <= TICKS_PERIOD / 2 ->
  exists ready self',
    _wait_busy_wrapping fuel timeout_ms self = Some (ready, self') /\
    _wait_busy fuel timeout_ms self = Some (ready, self') /\
    (exists t', self' = on_board (set_ticks t') self /\ ticks (board self) <= t') /\
    ready = (ticks (board self') - ticks (board self) <? timeout_ms) /\
    ready = (ticks_diff_wrapping (ticks_ms (board self')) (ticks_ms (board self))
             <? timeout_ms) /\
    (ready = true -> busy_line (board self) (ticks (board self')) = false) /\
    ((forall t, ticks (board self) <= t < ticks (board self) + timeout_ms ->
                busy_line (board self) t = true) ->
     ready = false) /\
    ((forall t, overrun (board self) t = 0%N) ->
     (exists polls : nat,
         ticks (board self') = ticks (board self) + 50 * Z.of_nat polls /\
         forall j : nat,
           (j < polls)%nat ->
           busy_line (board self) (ticks (board self) + 50 * Z.of_nat j) = true /\
           50 * Z.of_nat j < timeout_ms) /\
     ((forall t, ticks (board self) <= t < ticks (board self) + timeout_ms ->
                 busy_line (board self) t = true) ->
      0 <= timeout_ms ->
      timeout_ms <= ticks (board self') - ticks (board self) < timeout_ms + 50)).
Proof.
  intros Hfuel Hlate Hbound.
  pose proof (wait_busy_wrapping_agrees fuel timeout_ms slack self Hlate Hbound) as Hsame.
  destruct (wait_busy_returns fuel timeout_ms self Hfuel)
    as (t' & Hrun & Hle & Hstop & Hheld & Hpolls).
  exists (t' - ticks (board self) <? timeout_ms), (on_board (set_ticks t') self).
  split; [now rewrite Hsame |]. split; [exact Hrun |].
  split; [exists t'; split; [reflexivity | exact Hle] |].
  split; [reflexivity |].
  split.
  { unfold _wait_busy_wrapping in Hsame. rewrite Hrun in Hsame.
    destruct (_wait_busy_loop_wrapping fuel (ticks_ms (board self)) timeout_ms self)
      as [s |]; [| discriminate].
    cbn [mbind option_bind] in Hsame. injection Hsame as Hready Hs. subst s.
    now rewrite Hready. }
  cbn [on_board with_board board set_ticks ticks].
  split; [| split].
  - intros Hready%Z.ltb_lt. destruct Hstop as [Hfree | Hspent]; [exact Hfree | lia].
  - intros Hall. apply Z.ltb_ge. now apply Hheld.
  - intros Hzero. destruct (Hpolls Hzero) as (polls & Ht' & Hbefore).
    split; [exists polls; split; [exact Ht' | exact Hbefore] |].
    intros Hall Hpos. specialize (Hheld Hall).
    destruct polls as [| polls]; [lia |].
    destruct (Hbefore polls) as [_ Hlast]; lia.
Qed.

Lemma wait_busy_terminates_witness :
  let self := create_display stuck_board ORIENTATION_0 200 200 in
  exists ready self',
    _wait_busy_wrapping 301 15000 self = Some (ready, self') /\
    _wait_busy 301 15000 self = Some (ready, self') /\
    (exists t', self' = on_board (set_ticks t') self /\ ticks (board self) <= t') /\
    ready = (ticks (board self') - ticks (board self) <? 15000) /\
    ready = (ticks_diff_wrapping (ticks_ms (board self')) (ticks_ms (board self))
             <? 15000) /\
    (ready = true -> busy_line (board self) (ticks (board self')) = false) /\
    ((forall t, ticks (board self) <= t < ticks (board self) + 15000 ->
                busy_line (board self) t = true) ->
     ready = false) /\
    ((forall t, overrun (board self) t = 0%N) ->
     (exists polls : nat,
         ticks (board self') = ticks (board self) + 50 * Z.of_nat polls /\
         forall j : nat,
           (j < polls)%nat ->
           busy_line (board self) (ticks (board self) + 50 * Z.of_nat j) = true /\
           50 * Z.of_nat j < 15000) /\
     ((forall t, ticks (board self) <= t < ticks (board self) + 15000 ->
                 busy_line (board self) t = true) ->
      0 <= 15000 ->
      15000 <= ticks (board self') - ticks (board self) < 15000 + 50)).
Proof.
  apply (wait_busy_terminates 301 15000 0 (create_display stuck_board ORIENTATION_0 200 200)).
  - unfold polls_needed. simpl. lia.
  - intros t. simpl. lia.
  - vm_compute. discriminate.
Defined.

(** The counter at work: a wait that starts 20 ms before the counter
    wraps, on a held busy line, still times out after 15 s; and with a
    timeout of half a period it does not return, whatever the fuel. *)
Example wait_busy_across_the_wrap :
  let self := create_display (power_up (fun _ => true) (fun _ => 0%N) (TICKS_PERIOD - 20))
                             ORIENTATION_0 200 200 in
  _wait_busy_wrapping 301 default_timeout_ms self
  = Some (false, on_board (set_ticks (TICKS_PERIOD - 20 + 15000)) self) /\
  ticks_ms (board (on_board (set_ticks (TICKS_PERIOD - 20 + 15000)) self)) = 14980.
Proof. split; vm_compute; reflexivity. Qed.

Example wait_busy_half_period_never_returns (fuel : nat) :
  _wait_busy_wrapping fuel (TICKS_PERIOD / 2)
                      (create_display stuck_board ORIENTATION_0 200 200) = None.
Proof.
  unfold _wait_busy_wrapping. cbn zeta.
  rewrite wait_busy_wrapping_held_forever; [reflexivity | lia | reflexivity].
Qed.

(** ** Transcripts *)

Lemma transmitted_refl (self : SSD1681) : transmitted [] self self.
Proof.
  exists (board self). rewrite app_nil_r. destruct self. repeat split.
Qed.

Lemma transmitted_trans (f1 f2 : list transfer) (s1 s2 s3 : SSD1681) :
  transmitted f1 s1 s2 -> transmitted f2 s2 s3 -> transmitted (f1 ++ f2) s1 s3.
Proof.
  intros (bd1 & -> & Hlog1 & Hbusy1 & Hover1) (bd2 & -> & Hlog2 & Hbusy2 & Hover2).
  simpl in *. exists bd2. split; [reflexivity |].
  rewrite Hlog2, Hlog1, Hbusy2, Hbusy1, Hover2, Hover1, app_assoc. repeat split.
Qed.

Lemma transmitted_command (cmd : Z) (data : option pyval) (self : SSD1681) :
  transmitted (command_frames cmd data) self (_command cmd data self).
Proof.
  destruct self as [[log c d r busy t late] w h o size bw red].
  destruct data as [[items | bytes | n] |];
    (eexists; split; [reflexivity |]; simpl; rewrite <- ?app_assoc; repeat split).
Qed.

Lemma transmitted_reset (self : SSD1681) : transmitted [] self (reset self).
Proof.
  destruct self as [[log c d r busy t late] w h o size bw red].
  eexists. split; [reflexivity |]. simpl. rewrite app_nil_r. repeat split.
Qed.

Lemma transmitted_set_ticks (t : Z) (self : SSD1681) :
  transmitted [] self (on_board (set_ticks t) self).
Proof.
  eexists. split; [reflexivity |]. simpl. rewrite app_nil_r. repeat split.
Qed.

Lemma transmitted_reset_ram_address (self : SSD1681) :
  transmitted reset_ram_address_frames self (_reset_ram_address self).
Proof.
  unfold _reset_ram_address, reset_ram_address_frames.
  eapply transmitted_trans; apply transmitted_command.
Qed.

Lemma transmitted_fields (frames : list transfer) (s s' : SSD1681) :
  transmitted frames s s' ->
  width s' = width s /\ height s' = height s /\ orientation s' = orientation s /\
  _buffer_size s' = _buffer_size s /\ buffer s' = buffer s /\ red_buffer s' = red_buffer s.
Proof. intros (bd & -> & _). repeat split. Qed.

(** A busy-wait in the middle of a method: with enough fuel the rest of the
    method runs, from a state that differs by the clock only. *)
Lemma wait_busy_then {A} (fuel : nat) (self : SSD1681) (k : bool * SSD1681 -> option A) :
  (polls_needed default_timeout_ms <= fuel)%nat ->
  exists ready t',
    (_wait_busy fuel default_timeout_ms self ≫= k)
    = k (ready, on_board (set_ticks t') self).
Proof.
  intros Hfuel.
  destruct (wait_busy_returns fuel default_timeout_ms self Hfuel) as (t' & Hrun & _).
  eexists _, t'. rewrite Hrun. reflexivity.
Qed.

Lemma transmitted_as (frames frames' : list transfer) (s s' : SSD1681) :
  transmitted frames s s' -> frames = frames' -> transmitted frames' s s'.
Proof. now intros H <-. Qed.

Lemma transmitted_then_command (f : list transfer) (cmd : Z) (data : option pyval)
      (s s1 : SSD1681) :
  transmitted f s s1 ->
  transmitted (f ++ command_frames cmd data) s (_command cmd data s1).
Proof. intros H. eapply transmitted_trans; [exact H | apply transmitted_command]. Qed.

Lemma transmitted_then_set_ticks (f : list transfer) (t : Z) (s s1 : SSD1681) :
  transmitted f s s1 -> transmitted (f ++ []) s (on_board (set_ticks t) s1).
Proof. intros H. eapply transmitted_trans; [exact H | apply transmitted_set_ticks]. Qed.

Lemma transmitted_then_reset (f : list transfer) (s s1 : SSD1681) :
  transmitted f s s1 -> transmitted (f ++ []) s (reset s1).
Proof. intros H. eapply transmitted_trans; [exact H | apply transmitted_reset]. Qed.

Lemma transmitted_then_reset_ram_address (f : list transfer) (s s1 : SSD1681) :
  transmitted f s s1 ->
  transmitted (f ++ reset_ram_address_frames) s (_reset_ram_address s1).
Proof.
  intros H. eapply transmitted_trans; [exact H | apply transmitted_reset_ram_address].
Qed.

(** Peel the calls of a method off its final state, last call first. *)
Ltac transmit :=
  repeat match goal with
         | |- transmitted _ _ (_command _ _ _) => apply transmitted_then_command
         | |- transmitted _ _ (reset _) => apply transmitted_then_reset
         | |- transmitted _ _ (_reset_ram_address _) =>
           apply transmitted_then_reset_ram_address
         | |- transmitted _ _ (on_board (set_ticks _) _) =>
           apply transmitted_then_set_ticks
         end;
  apply transmitted_refl.

(** Run the next busy-wait of the goal. *)
Ltac run_wait_busy Hfuel :=
  match goal with
  | |- context [_wait_busy ?fuel default_timeout_ms ?s ≫= ?k] =>
    let ready := fresh "ready" in
    let t := fresh "t" in
    destruct (wait_busy_then fuel s k Hfuel) as (ready & t & ->);
    cbn beta iota
  end.

Lemma power_on_sequence_transmits (fuel : nat) (self : SSD1681) :
  (polls_needed default_timeout_ms <= fuel)%nat ->
  exists self',
    _power_on_sequence fuel self = Some self' /\
    transmitted (command_frames CMD_SW_RESET None) self self'.
Proof.
  intros Hfuel. unfold _power_on_sequence. cbn zeta.
  run_wait_busy Hfuel. run_wait_busy Hfuel.
  eexists. split; [reflexivity |].
  eapply transmitted_as; [transmit | reflexivity].
Qed.

Lemma configure_ram_transmits (self : SSD1681) :
  transmitted
    (command_frames CMD_GATE_DRIVING_VOLTAGE (Some (PyList [0xC7; 0x00; 0x00])) ++
     command_frames CMD_DATA_ENTRY_MODE (Some (PyList [DATA_ENTRY_MODE_DEFAULT])) ++
     command_frames CMD_SET_RAM_X_RANGE (Some (PyList [0x00; width self / 8 - 1])) ++
     command_frames CMD_SET_RAM_Y_RANGE
       (Some (PyList [0x00; 0x00; Z.land (height self - 1) 0xFF;
                      Z.land (Z.shiftr (height self - 1) 8) 0xFF])) ++
     reset_ram_address_frames)
    self (_configure_ram self).
Proof.
  destruct self as [bd w h o size bw red].
  unfold _configure_ram. cbn zeta.
  eapply transmitted_as; [transmit |].
  destruct bd. reflexivity.
Qed.

Lemma load_lut_transmits (fuel : nat) (self : SSD1681) :
  (polls_needed default_timeout_ms <= fuel)%nat ->
  exists self',
    _load_lut fuel self = Some self' /\
    transmitted (command_frames CMD_LOAD_LUT (Some (PyList [0xB1])) ++
                 command_frames CMD_ACTIVATE_DISPLAY None) self self'.
Proof.
  intros Hfuel. unfold _load_lut. cbn zeta.
  run_wait_busy Hfuel.
  eexists. split; [reflexivity |].
  eapply transmitted_as; [transmit | reflexivity].
Qed.

Lemma init_transmits (fuel : nat) (self : SSD1681) :
  (polls_needed default_timeout_ms <= fuel)%nat ->
  exists self',
    init fuel self = Some self' /\
    transmitted (init_frames (width self) (height self)) self self'.
Proof.
  intros Hfuel. unfold init.
  destruct (power_on_sequence_transmits fuel self Hfuel) as (s1 & -> & T1).
  cbn [mbind option_bind]. cbn zeta.
  pose proof (configure_ram_transmits s1) as T2.
  destruct (load_lut_transmits fuel (_configure_ram s1) Hfuel) as (s3 & -> & T3).
  cbn [mbind option_bind].
  run_wait_busy Hfuel.
  eexists. split; [reflexivity |].
  destruct (transmitted_fields _ _ _ T1) as (Hw & Hh & _).
  rewrite Hw, Hh in T2.
  eapply transmitted_as.
  - eapply transmitted_trans; [exact T1 |].
    eapply transmitted_trans; [exact T2 |].
    eapply transmitted_trans; [exact T3 |].
    apply transmitted_set_ticks.
  - unfold init_frames. rewrite <- !app_assoc, app_nil_r. reflexivity.
Qed.

Lemma show_transmits (fuel : nat) (self : SSD1681) :
  (polls_needed default_timeout_ms <= fuel)%nat ->
  exists self',
    show fuel self = Some self' /\
    transmitted (show_frames (buffer self) (red_buffer self)) self self'.
Proof.
  intros Hfuel. destruct self as [bd w h o size bw red].
  unfold show. cbn zeta.
  run_wait_busy Hfuel.
  eexists. split; [reflexivity |].
  eapply transmitted_as; [transmit |].
  destruct bd. reflexivity.
Qed.

Lemma sleep_transmits (self : SSD1681) :
  transmitted (command_frames CMD_DEEP_SLEEP (Some (PyList [0x01]))) self (sleep self).
Proof. apply transmitted_command. Qed.

(** ** End to end: a red pixel in the corner *)

Example red_corner_position :
  _map_coordinates (create_display idle_board ORIENTATION_0 200 200) 0 0 = (4999, 7).
Proof. reflexivity. Qed.

(** The drawing part of the run, on any board. *)
Lemma red_corner_planes (bd bd' : Board) :
  (clear ;; pixel 0 0 COLOR_RED)%py
    (with_board bd' (create_display bd ORIENTATION_0 200 200))
  = Ok tt (mkSSD1681 bd' 200 200 ORIENTATION_0 5000
             (replicate 5000 0xFF) (replicate 4999 0x00 ++ [0x01])).
Proof. vm_compute. reflexivity. Qed.

(** C2, as amended: on a 200x200 session at orientation 0, whatever the
    busy line does, [init(); clear(); pixel(0, 0, COLOR_RED); show()]
    returns; (0, 0) maps to byte 4999, bit index 7; the payload sent after
    the write-B/W-RAM command is 0xFF in all 5000 bytes (the primary bit of
    the pixel stays 1); the payload sent after the write-RED-RAM command is
    0x00 in every byte but byte 4999, which is 0x01 (the accent bit of the
    pixel is 1). *)
Theorem red_corner_transmitted (busy : Z -> bool) (late : Z -> N) (t0 : Z) (fuel : nat) :
  (polls_needed default_timeout_ms <= fuel)%nat ->
  exists display,
    red_corner_run fuel (power_up busy late t0) = Some (Ok tt display) /\
    _map_coordinates display 0 0 = (4999, 7) /\
    spi_log (board display)
    = init_frames 200 200 ++
      show_frames (replicate 5000 0xFF) (replicate 4999 0x00 ++ [0x01]) /\
    payload_after CMD_WRITE_RAM_BW (spi_log (board display))
    = Some (replicate 5000 0xFF) /\
    payload_after CMD_WRITE_RAM_RED (spi_log (board display))
    = Some (replicate 4999 0x00 ++ [0x01]) /\
    read_bit (replicate 5000 0xFF) 4999 7 = Some true /\
    read_bit (replicate 4999 0x00 ++ [0x01]) 4999 7 = Some true.
Proof.
  intros Hfuel. unfold red_corner_run.
  destruct (init_transmits fuel (create_display (power_up busy late t0) ORIENTATION_0 200 200) Hfuel)
    as (s1 & -> & (bd1 & -> & Hlog1 & _)).
  cbn [mbind option_bind].
  rewrite red_corner_planes.
  destruct (show_transmits fuel
              (mkSSD1681 bd1 200 200 ORIENTATION_0 5000
                 (replicate 5000 0xFF) (replicate 4999 0x00 ++ [0x01])) Hfuel)
    as (s3 & -> & (bd3 & -> & Hlog3 & _)).
  cbn [mbind option_bind].
  eexists. split; [reflexivity |].
  split; [reflexivity |].
  cbn [with_board board buffer red_buffer] in *.
  assert (spi_log bd3
          = init_frames 200 200 ++
            show_frames (replicate 5000 0xFF) (replicate 4999 0x00 ++ [0x01])) as Hlog.
  { rewrite Hlog3, Hlog1. reflexivity. }
  split; [exact Hlog |]. rewrite Hlog.
  repeat split; vm_compute; reflexivity.
Qed.

Lemma red_corner_transmitted_witness :
  exists display,
    red_corner_run 301 (power_up (fun _ => false) (fun _ => 0%N) 0) = Some (Ok tt display) /\
    _map_coordinates display 0 0 = (4999, 7) /\
    spi_log (board display)
    = init_frames 200 200 ++
      show_frames (replicate 5000 0xFF) (replicate 4999 0x00 ++ [0x01]) /\
    payload_after CMD_WRITE_RAM_BW (spi_log (board display))
    = Some (replicate 5000 0xFF) /\
    payload_after CMD_WRITE_RAM_RED (spi_log (board display))
    = Some (replicate 4999 0x00 ++ [0x01]) /\
    read_bit (replicate 5000 0xFF) 4999 7 = Some true /\
    read_bit (replicate 4999 0x00 ++ [0x01]) 4999 7 = Some true.
Proof.
  apply (red_corner_transmitted (fun _ => false) (fun _ => 0%N) 0 301).
  unfold polls_needed. simpl. lia.
Defined.

(** C2 as stated fails: in the payload sent after the write-B/W-RAM command
    the bit of the pixel (byte 4999, bit index 7) is 1, not 0, and byte 4999
    is 0xFF like every other byte. *)
Lemma red_corner_primary_bit_stays_set :
  match red_corner_run 301 idle_board with
  | Some (Ok _ display) =>
    match payload_after CMD_WRITE_RAM_BW (spi_log (board display)) with
    | Some bw =>
      _map_coordinates display 0 0 = (4999, 7) /\
      read_bit bw 4999 7 = Some true /\
      getitem bw 4999 = Some 0xFF
    | None => False
    end
  | _ => False
  end.
Proof. vm_compute. repeat split; reflexivity. Qed.

(** ** Allocation and lengths of the planes *)

Lemma length_bytearray_repeat (v n : Z) : length (bytearray (py_repeat v n)) = Z.to_nat n.
Proof. unfold bytearray, py_repeat. now rewrite length_fmap, length_replicate. Qed.

Lemma constructor_well_formed (bd : Board) (w h o : Z) : well_formed (__init__ bd w h o).
Proof.
  unfold well_formed, planes_allocated, __init__. simpl.
  rewrite !length_bytearray_repeat. tauto.
Qed.

Lemma constructor_planes (bd : Board) (w h o : Z) :
  buffer (__init__ bd w h o) = replicate (Z.to_nat (w * h / 8)) 0xFF /\
  red_buffer (__init__ bd w h o) = replicate (Z.to_nat (w * h / 8)) 0x00.
Proof.
  unfold __init__, bytearray, py_repeat. simpl. now rewrite !fmap_replicate.
Qed.

Lemma floor_and_ceil_div8 (n : Z) :
  n / 8 = ceil_div8 n - (if n mod 8 =? 0 then 0 else 1).
Proof.
  unfold ceil_div8. destruct (n mod 8 =? 0) eqn:E.
  - apply Z.eqb_eq in E. Z.div_mod_to_equations. lia.
  - apply Z.eqb_neq in E. Z.div_mod_to_equations. lia.
Qed.

Lemma same_shape_lengths (s s' : SSD1681) : same_shape s s' -> same_lengths s s'.
Proof. unfold same_shape, same_lengths. tauto. Qed.

Lemma transmitted_lengths (frames : list transfer) (s s' : SSD1681) :
  transmitted frames s s' -> same_lengths s s'.
Proof.
  intros H. destruct (transmitted_fields _ _ _ H) as (_ & _ & _ & _ & Hb & Hr).
  unfold same_lengths. now rewrite Hb, Hr.
Qed.

(** C7, as amended: for every width and height the constructor allocates
    both planes with the same length, floor(width*height/8) bytes (none when
    that is negative), which is ceil(width*height/8) when width*height is a
    multiple of 8 and one less otherwise; and from any state [clear],
    [pixel], [text], [sleep] and, run with fuel for their busy-waits, [show]
    and [init] leave the lengths of both planes as they were, whether they
    return or raise. *)
Theorem planes_keep_their_length (FONT_8X8 : gmap ascii (list Z))
        (bd : Board) (w h o : Z) :
  length (buffer (__init__ bd w h o)) = Z.to_nat (w * h / 8) /\
  length (red_buffer (__init__ bd w h o)) = Z.to_nat (w * h / 8) /\
  w * h / 8 = ceil_div8 (w * h) - (if (w * h) mod 8 =? 0 then 0 else 1) /\
  forall s : SSD1681,
    same_lengths s (final (clear s)) /\
    (forall x y color, same_lengths s (final (pixel x y color s))) /\
    (forall string x y color font_size,
        same_lengths s (final (text FONT_8X8 string x y color font_size s))) /\
    same_lengths s (sleep s) /\
    (forall fuel, (polls_needed default_timeout_ms <= fuel)%nat ->
                  (exists s', show fuel s = Some s' /\ same_lengths s s') /\
                  (exists s', init fuel s = Some s' /\ same_lengths s s')).
Proof.
  split; [unfold __init__; simpl; apply length_bytearray_repeat |].
  split; [unfold __init__; simpl; apply length_bytearray_repeat |].
  split; [apply floor_and_ceil_div8 |].
  intros s. split; [apply same_shape_lengths, preserves_clear |].
  split; [intros x y color; apply same_shape_lengths, preserves_pixel |].
  split; [intros string x y color font_size; apply same_shape_lengths, preserves_text |].
  split; [apply (transmitted_lengths _ _ _ (sleep_transmits s)) |].
  intros fuel Hfuel. split.
  - destruct (show_transmits fuel s Hfuel) as (s' & Hs & T).
    exists s'. split; [exact Hs | exact (transmitted_lengths _ _ _ T)].
  - destruct (init_transmits fuel s Hfuel) as (s' & Hs & T).
    exists s'. split; [exact Hs | exact (transmitted_lengths _ _ _ T)].
Qed.

Lemma planes_keep_their_length_witness :
  length (buffer (__init__ idle_board 200 200 0)) = Z.to_nat (200 * 200 / 8) /\
  length (red_buffer (__init__ idle_board 200 200 0)) = Z.to_nat (200 * 200 / 8) /\
  200 * 200 / 8 = ceil_div8 (200 * 200) - (if (200 * 200) mod 8 =? 0 then 0 else 1) /\
  forall s : SSD1681,
    same_lengths s (final (clear s)) /\
    (forall x y color, same_lengths s (final (pixel x y color s))) /\
    (forall string x y color font_size,
        same_lengths s (final (text sample_font string x y color font_size s))) /\
    same_lengths s (sleep s) /\
    (forall fuel, (polls_needed default_timeout_ms <= fuel)%nat ->
                  (exists s', show fuel s = Some s' /\ same_lengths s s') /\
                  (exists s', init fuel s = Some s' /\ same_lengths s s')).
Proof. exact (planes_keep_their_length sample_font idle_board 200 200 0). Defined.

(** C7 as stated fails: a 3x3 panel gets planes of one byte, and
    ceil(9/8) is 2. *)
Lemma planes_shorter_than_ceil_on_3x3 :
  length (buffer (__init__ idle_board 3 3 ORIENTATION_0)) = 1%nat /\
  length (red_buffer (__init__ idle_board 3 3 ORIENTATION_0)) = 1%nat /\
  Z.to_nat (ceil_div8 (3 * 3)) = 2%nat.
Proof. repeat split. Qed.

(** ** Text layout *)

Lemma bind_ret_tt (c : M unit) (self : SSD1681) : bind c (fun _ => ret tt) self = c self.
Proof. unfold bind, ret. destruct (c self) as [[] s | e s]; reflexivity. Qed.

Lemma right_edge_as_code (x scale i : Z) :
  x + i * (8 * scale) + 8 * scale = right_edge x scale i.
Proof. unfold right_edge. ring. Qed.

(** The loop of [text] draws the characters counted by [rendered_count], at
    the abscissas of the specification. *)
Lemma text_loop_as_spec (FONT_8X8 : gmap ascii (list Z)) (x y color scale : Z)
      (chars : list ascii) :
  forall (i : Z) (self : SSD1681),
    text_loop FONT_8X8 (enumerate_from i chars) x y color scale (8 * scale) self
    = for_each
        (enumerate_from i (take (rendered_count (width self) x scale i (length chars)) chars))
        (fun '(j, c) => _draw_char FONT_8X8 c (x + j * (8 * scale)) y color scale) self.
Proof.
  induction chars as [| c rest IH]; intros i self; [reflexivity |].
  cbn [enumerate_from text_loop length rendered_count].
  rewrite right_edge_as_code.
  destruct (right_edge x scale i >? width self); [reflexivity |].
  cbn [take enumerate_from for_each]. unfold bind.
  pose proof (preserves_draw_char FONT_8X8 c (x + i * (8 * scale)) y color scale self) as Hsame.
  destruct (_draw_char FONT_8X8 c (x + i * (8 * scale)) y color scale self)
    as [[] self' | e self']; [| reflexivity].
  destruct Hsame as (_ & Hw & _). simpl in Hw.
  rewrite IH, Hw. reflexivity.
Qed.

Lemma rendered_count_le (w x scale : Z) (len : nat) :
  forall i, (rendered_count w x scale i len <= len)%nat.
Proof.
  induction len as [| len IH]; intros i; simpl; [lia |].
  destruct (right_edge x scale i >? w); [lia |]. specialize (IH (i + 1)). lia.
Qed.

Lemma rendered_count_fit (w x scale : Z) (len : nat) :
  forall i (k : nat),
    (k < rendered_count w x scale i len)%nat -> right_edge x scale (i + Z.of_nat k) <= w.
Proof.
  induction len as [| len IH]; intros i k; simpl; [lia |].
  destruct (right_edge x scale i >? w) eqn:E; [lia |].
  intros Hk. destruct k as [| k].
  - replace (i + Z.of_nat 0) with i by lia. lia.
  - replace (i + Z.of_nat (S k)) with (i + 1 + Z.of_nat k) by lia. apply IH. lia.
Qed.

Lemma rendered_count_stop (w x scale : Z) (len : nat) :
  forall i,
    (rendered_count w x scale i len < len)%nat ->
    right_edge x scale (i + Z.of_nat (rendered_count w x scale i len)) > w.
Proof.
  induction len as [| len IH]; intros i; simpl; [lia |].
  destruct (right_edge x scale i >? w) eqn:E.
  - intros _. replace (i + Z.of_nat 0) with i by lia. lia.
  - intros Hlt.
    replace (i + Z.of_nat (S (rendered_count w x scale (i + 1) len)))
      with (i + 1 + Z.of_nat (rendered_count w x scale (i + 1) len)) by lia.
    apply IH. lia.
Qed.

(** For a positive scale the count is the number of whole character cells
    between [x] and the right border, capped by the length of the text. *)
Lemma rendered_count_closed (w x scale : Z) (len : nat) :
  0 < scale ->
  forall i,
    rendered_count w x scale i len
    = Z.to_nat (Z.min (Z.of_nat len) (Z.max 0 ((w - x) / (8 * scale) - i))).
Proof.
  intros Hs.
  assert (0 < 8 * scale) as Hc by lia.
  pose proof (Z.mul_div_le (w - x) (8 * scale) Hc) as Hlow.
  pose proof (Z.mul_succ_div_gt (w - x) (8 * scale) Hc) as Hhigh.
  set (q := (w - x) / (8 * scale)) in *. clearbody q.
  induction len as [| len IH]; intros i; simpl rendered_count; [lia |].
  unfold right_edge.
  destruct (x + (i + 1) * (8 * scale) >? w) eqn:E.
  - assert (q - i <= 0) by nia. lia.
  - assert (1 <= q - i) by nia. rewrite IH. lia.
Qed.

Example text_AB_on_16 :
  let self := create_display idle_board ORIENTATION_180 16 8 in
  text sample_font "AB" 0 0 COLOR_BLACK 1 self
  = (_draw_char sample_font "A" 0 0 COLOR_BLACK 1 ;;
     _draw_char sample_font "B" 8 0 COLOR_BLACK 1)%py self /\
  buffer (final (text sample_font "AB" 0 0 COLOR_BLACK 1 self))
  = [0xFF; 0xFF; 0xC1; 0xFF; 0x81; 0xFF; 0x2F; 0xFF;
     0x2F; 0xFF; 0x81; 0xFF; 0xC1; 0xFF; 0xFF; 0xFF].
Proof. split; vm_compute; reflexivity. Qed.

Example text_truncated_on_16 :
  let self := create_display idle_board ORIENTATION_180 16 16 in
  text sample_font "AAAAAAAA" 0 0 COLOR_BLACK 2 self
  = _draw_char sample_font "A" 0 0 COLOR_BLACK 2 self /\
  text sample_font "AAAAAAAA" 1 0 COLOR_BLACK 2 self = Ok tt self.
Proof. split; vm_compute; reflexivity. Qed.

(** * Further properties *)

(** ** Combinators *)

Lemma keeps_ret {A} (R : SSD1681 -> SSD1681 -> Prop) (a : A) :
  (forall s, R s s) -> keeps R (ret a).
Proof. intros Hrefl self. apply Hrefl. Qed.

Lemma keeps_raise {A} (R : SSD1681 -> SSD1681 -> Prop) (e : exn) :
  (forall s, R s s) -> keeps R (@raise A e).
Proof. intros Hrefl self. apply Hrefl. Qed.

Lemma keeps_bind {A B} (R : SSD1681 -> SSD1681 -> Prop) (c : M A) (k : A -> M B) :
  (forall s1 s2 s3, R s1 s2 -> R s2 s3 -> R s1 s3) ->
  keeps R c -> (forall a, keeps R (k a)) -> keeps R (bind c k).
Proof.
  intros Htrans Hc Hk self. unfold bind. specialize (Hc self).
  destruct (c self) as [a s | e s]; simpl in *.
  - eapply Htrans; [exact Hc | apply Hk].
  - exact Hc.
Qed.

Lemma keeps_for_each {A} (R : SSD1681 -> SSD1681 -> Prop) (items : list A)
      (body : A -> M unit) :
  (forall s, R s s) ->
  (forall s1 s2 s3, R s1 s2 -> R s2 s3 -> R s1 s3) ->
  (forall i, i ∈ items -> keeps R (body i)) ->
  keeps R (for_each items body).
Proof.
  intros Hrefl Htrans. induction items as [| i rest IH]; intros Hbody; simpl.
  - now apply keeps_ret.
  - apply keeps_bind; [exact Htrans | apply Hbody; left |].
    intros _. apply IH. intros j Hj. apply Hbody. now right.
Qed.

Lemma returns_ret {A} (Inv : SSD1681 -> Prop) (a : A) : returns Inv (ret a).
Proof. intros self Hinv. now exists a, self. Qed.

Lemma returns_bind {A B} (Inv : SSD1681 -> Prop) (c : M A) (k : A -> M B) :
  returns Inv c -> (forall a, returns Inv (k a)) -> returns Inv (bind c k).
Proof.
  intros Hc Hk self Hinv. destruct (Hc self Hinv) as (a & s & Hs & Hinv').
  unfold bind. rewrite Hs. now apply Hk.
Qed.

Lemma returns_for_each {A} (Inv : SSD1681 -> Prop) (items : list A) (body : A -> M unit) :
  (forall i, i ∈ items -> returns Inv (body i)) -> returns Inv (for_each items body).
Proof.
  induction items as [| i rest IH]; intros Hbody; simpl.
  - apply returns_ret.
  - apply returns_bind; [apply Hbody; left |].
    intros _. apply IH. intros j Hj. apply Hbody. now right.
Qed.

(** ** What one write does to a plane *)

(** [_set_pixel_buffer] leaves the object as it was, or replaces the one
    byte of the one plane by [updated_byte]. *)
Lemma set_pixel_buffer_final (x y : Z) (p : plane) (value : bool) (self : SSD1681) :
  final (_set_pixel_buffer x y p value self) = self \/
  (in_canvas self x y = true /\
   exists old,
     get_plane p self !! Z.to_nat (_map_coordinates self x y).1 = Some old /\
     _set_pixel_buffer x y p value self
     = Ok tt (set_plane p
                (<[Z.to_nat (_map_coordinates self x y).1 :=
                     updated_byte value old (_map_coordinates self x y).2]>
                   (get_plane p self)) self)).
Proof.
  destruct (in_canvas self x y) eqn:Hin;
    [| left; now rewrite set_pixel_buffer_outside].
  pose proof (map_coordinates_byte_nonneg self x y Hin) as Hnn.
  destruct (get_plane p self !! Z.to_nat (_map_coordinates self x y).1) as [old |] eqn:Hold.
  - right. split; [reflexivity |]. exists old. split; [reflexivity |].
    rewrite (set_pixel_buffer_inside x y p value self old Hin Hnn Hold).
    unfold updated_byte. now destruct value.
  - left. rewrite set_pixel_buffer_beyond; [reflexivity | exact Hin |].
    apply lookup_ge_None in Hold. lia.
Qed.

(** ** Bits of an updated byte *)

Lemma mask_test (v k : Z) :
  0 <= k < 8 -> (Z.land v (Z.shiftr 0x80 k) =? 0) = negb (Z.testbit v (7 - k)).
Proof.
  intros Hk. destruct (bit_mask_cases k Hk) as [-> Hn].
  destruct (Z.testbit v (7 - k)) eqn:Hbit; simpl.
  - apply Z.eqb_neq. intros H.
    apply (f_equal (fun w => Z.testbit w (7 - k))) in H.
    rewrite Z.land_spec, Hbit, Z.pow2_bits_true, Z.bits_0 in H by assumption.
    discriminate.
  - apply Z.eqb_eq. apply Z.bits_inj'. intros j Hj.
    rewrite Z.land_spec, Z.bits_0, Z.pow2_bits_eqb by assumption.
    destruct (Z.eqb_spec (7 - k) j) as [<- | _]; [now rewrite Hbit | apply andb_false_r].
Qed.

Lemma testbit_updated_byte (value : bool) (old k j : Z) :
  0 <= k < 8 -> 0 <= j ->
  Z.testbit (updated_byte value old k) j
  = if j =? 7 - k then value else Z.testbit old j.
Proof.
  intros Hk Hj. unfold updated_byte. destruct (bit_mask_cases k Hk) as [-> Hn].
  destruct value.
  - rewrite Z.lor_spec, Z.pow2_bits_eqb by assumption.
    rewrite (Z.eqb_sym (7 - k) j). destruct (j =? 7 - k); [apply orb_true_r | apply orb_false_r].
  - rewrite Z.land_spec, Z.lnot_spec, Z.pow2_bits_eqb by assumption.
    rewrite (Z.eqb_sym (7 - k) j). destruct (j =? 7 - k); [apply andb_false_r | apply andb_true_r].
Qed.

(** The later of two writes to one bit decides the byte. *)
Lemma updated_byte_twice (v v' : bool) (old k : Z) :
  0 <= k < 8 -> updated_byte v' (updated_byte v old k) k = updated_byte v' old k.
Proof.
  intros Hk. apply Z.bits_inj'. intros j Hj.
  rewrite !testbit_updated_byte by assumption. now destruct (j =? 7 - k).
Qed.

(** Writes to two different bits of a byte can be done in either order. *)
Lemma updated_byte_swap (v v' : bool) (old k k' : Z) :
  0 <= k < 8 -> 0 <= k' < 8 -> k <> k' ->
  updated_byte v' (updated_byte v old k) k' = updated_byte v (updated_byte v' old k') k.
Proof.
  intros Hk Hk' Hne. apply Z.bits_inj'. intros j Hj.
  rewrite !testbit_updated_byte by assumption.
  destruct (Z.eqb_spec j (7 - k)), (Z.eqb_spec j (7 - k')); try reflexivity. lia.
Qed.

Lemma is_byte_mod (v : Z) : is_byte v <-> v mod 2 ^ 8 = v.
Proof.
  unfold is_byte. split.
  - intros Hv. apply Z.mod_small. exact Hv.
  - intros <-. apply Z.mod_pos_bound. reflexivity.
Qed.

(** An updated byte is a byte. *)
Lemma updated_byte_is_byte (value : bool) (old k : Z) :
  0 <= k < 8 -> is_byte old -> is_byte (updated_byte value old k).
Proof.
  intros Hk Hold%is_byte_mod. apply is_byte_mod. apply Z.bits_inj'. intros j Hj.
  destruct (Z_lt_le_dec j 8) as [Hlow | Hhigh].
  - apply Z.mod_pow2_bits_low. lia.
  - rewrite Z.mod_pow2_bits_high by lia.
    rewrite testbit_updated_byte by assumption.
    destruct (Z.eqb_spec j (7 - k)); [lia |].
    rewrite <- Hold. symmetry. apply Z.mod_pow2_bits_high. lia.
Qed.

(** The bit read at another bit index of the same byte is the old one. *)
Lemma read_other_bit (value : bool) (old k k' : Z) :
  0 <= k < 8 -> 0 <= k' < 8 -> k <> k' ->
  (Z.land (updated_byte value old k) (Z.shiftr 0x80 k') =? 0)
  = (Z.land old (Z.shiftr 0x80 k') =? 0).
Proof.
  intros Hk Hk' Hne. rewrite !mask_test, testbit_updated_byte by lia.
  destruct (Z.eqb_spec (7 - k') (7 - k)); [lia | reflexivity].
Qed.

Lemma read_same_bit (value : bool) (old k : Z) :
  0 <= k < 8 ->
  (Z.land (updated_byte value old k) (Z.shiftr 0x80 k) =? 0) = negb value.
Proof.
  intros Hk. rewrite mask_test, testbit_updated_byte by lia.
  now rewrite Z.eqb_refl.
Qed.

(** ** Pixels do not disturb one another *)

Lemma same_shape_in_canvas (s s' : SSD1681) (x y : Z) :
  same_shape s s' -> in_canvas s' x y = in_canvas s x y.
Proof. intros (_ & Hw & Hh & _). unfold in_canvas. now rewrite Hw, Hh. Qed.

Lemma same_shape_map_coordinates (s s' : SSD1681) (x y : Z) :
  same_shape s s' -> _map_coordinates s' x y = _map_coordinates s x y.
Proof.
  intros (_ & Hw & Hh & Ho & _). unfold _map_coordinates, hw_coordinates.
  now rewrite Hw, Hh, Ho.
Qed.

Lemma same_shape_geometry (s s' : SSD1681) :
  same_shape s s' ->
  (byte_aligned s -> byte_aligned s') /\
  (square_for_quarter_turns s -> square_for_quarter_turns s').
Proof.
  intros (_ & Hw & Hh & Ho & _). unfold byte_aligned, square_for_quarter_turns.
  rewrite Hw, Hh, Ho. tauto.
Qed.

Lemma same_shape_supported (s s' : SSD1681) : same_shape s s' -> supported s -> supported s'.
Proof.
  intros Hsame (Hwf & Hal & Hsq).
  destruct (same_shape_geometry s s' Hsame) as [Hal' Hsq'].
  split; [exact (same_shape_well_formed s s' Hsame Hwf) |]. split; auto.
Qed.

Lemma untouched_outside_refl (P : Z -> Z -> Prop) (s : SSD1681) : untouched_outside P s s.
Proof. split; [apply same_shape_refl | reflexivity]. Qed.

Lemma untouched_outside_trans (P : Z -> Z -> Prop) (s1 s2 s3 : SSD1681) :
  untouched_outside P s1 s2 -> untouched_outside P s2 s3 -> untouched_outside P s1 s3.
Proof.
  intros [Hs12 H12] [Hs23 H23]. split; [exact (same_shape_trans _ _ _ Hs12 Hs23) |].
  intros Hal Hsq x y Hin HP.
  destruct (same_shape_geometry s1 s2 Hs12) as [Hal' Hsq'].
  rewrite H23; auto. now rewrite (same_shape_in_canvas s1 s2).
Qed.

Lemma untouched_outside_mono (P Q : Z -> Z -> Prop) (s s' : SSD1681) :
  (forall x y, P x y -> Q x y) -> untouched_outside P s s' -> untouched_outside Q s s'.
Proof.
  intros HPQ [Hs H]. split; [exact Hs |]. intros Hal Hsq x y Hin HQ.
  apply H; auto.
Qed.

Lemma getitem_insert_other (b : list Z) (i i' v : Z) :
  0 <= i -> 0 <= i' -> i <> i' ->
  getitem (<[Z.to_nat i := v]> b) i' = getitem b i'.
Proof.
  intros Hi Hi' Hne. unfold getitem. rewrite length_insert.
  destruct (py_index (length b) i') as [k |] eqn:Hk; [| reflexivity].
  simpl. apply list_lookup_insert_ne.
  unfold py_index in Hk.
  destruct ((0 <=? i') && (i' <? Z.of_nat (length b))).
  - injection Hk as <-. lia.
  - destruct ((- Z.of_nat (length b) <=? i') && (i' <? 0)) eqn:E; [| discriminate].
    apply andb_true_iff in E. lia.
Qed.

(** Reading a plane anywhere but at the written bit gives the old bit. *)
Lemma read_bit_after_write (b : list Z) (i k i' k' old : Z) (value : bool) :
  0 <= i -> 0 <= i' -> 0 <= k < 8 -> 0 <= k' < 8 ->
  b !! Z.to_nat i = Some old ->
  (i, k) <> (i', k') ->
  read_bit (<[Z.to_nat i := updated_byte value old k]> b) i' k' = read_bit b i' k'.
Proof.
  intros Hi Hi' Hk Hk' Hold Hne. unfold read_bit.
  destruct (Z.eq_dec i i') as [<- | Hii].
  - assert (k <> k') as Hkk by congruence.
    pose proof (lookup_lt_Some _ _ _ Hold) as Hlt.
    rewrite !getitem_in_range by (rewrite ?length_insert; lia).
    rewrite list_lookup_insert_eq, Hold by lia. simpl.
    now rewrite read_other_bit.
  - now rewrite getitem_insert_other.
Qed.

Lemma set_pixel_buffer_untouched (x y : Z) (p : plane) (value : bool) :
  keeps (untouched_outside (fun px py => px = x /\ py = y)) (_set_pixel_buffer x y p value).
Proof.
  intros self. split; [apply preserves_set_pixel_buffer |].
  intros Hal Hsq x' y' Hin' Hother.
  destruct (set_pixel_buffer_final x y p value self) as [-> | (Hin & old & Hold & ->)];
    [reflexivity |].
  cbn [final]. unfold plane_bits. rewrite map_coordinates_set_plane.
  assert (_map_coordinates self x y <> _map_coordinates self x' y') as Hne.
  { intros Heq. apply Hother.
    destruct (map_coordinates_injective self x y x' y' Hal Hsq Hin Hin' Heq). now split. }
  pose proof (map_coordinates_byte_nonneg self x y Hin) as Hnn.
  pose proof (map_coordinates_byte_nonneg self x' y' Hin') as Hnn'.
  pose proof (map_coordinates_bit self x y) as Hbit.
  pose proof (map_coordinates_bit self x' y') as Hbit'.
  destruct (_map_coordinates self x y) as [i k].
  destruct (_map_coordinates self x' y') as [i' k']. simpl in *.
  destruct p; simpl in *; now rewrite read_bit_after_write.
Qed.

Lemma pixel_untouched (x y color : Z) :
  keeps (untouched_outside (fun px py => px = x /\ py = y)) (pixel x y color).
Proof.
  unfold pixel.
  repeat match goal with |- context [if ?c then _ else _] => destruct c end;
    try (apply keeps_ret; apply untouched_outside_refl);
    (apply keeps_bind; [apply untouched_outside_trans | | intros _]);
    apply set_pixel_buffer_untouched.
Qed.

(** ** [pixel] as an update of the planes *)

Lemma pixel_off_canvas (x y color : Z) (self : SSD1681) :
  in_canvas self x y = false -> pixel x y color self = Ok tt self.
Proof.
  intros Hout.
  destruct (pixel_unfold x y color self) as [[_ ->] | [[_ ->] | [[_ ->] | (_ & _ & _ & ->)]]];
    try reflexivity; now apply pixel_pair_outside.
Qed.

Lemma insert_as_alter (b : list Z) (i : nat) (f : Z -> Z) (old : Z) :
  b !! i = Some old -> <[i := f old]> b = alter f i b.
Proof.
  intros Hold. rewrite list_insert_alter. apply list_alter_ext; [| reflexivity].
  intros v Hv. congruence.
Qed.

Lemma color_bits_cases (color : Z) :
  (color = COLOR_WHITE /\ color_bits color = Some (true, false)) \/
  (color = COLOR_BLACK /\ color_bits color = Some (false, false)) \/
  (color = COLOR_RED /\ color_bits color = Some (true, true)) \/
  (color <> COLOR_WHITE /\ color <> COLOR_BLACK /\ color <> COLOR_RED /\
   color_bits color = None).
Proof.
  unfold color_bits, COLOR_WHITE, COLOR_BLACK, COLOR_RED.
  destruct (color =? 0) eqn:E0; [left; split; [lia | reflexivity] |].
  destruct (color =? 1) eqn:E1; [right; left; split; [lia | reflexivity] |].
  destruct (color =? 2) eqn:E2; [right; right; left; split; [lia | reflexivity] |].
  right; right; right. repeat split; lia.
Qed.

(** The two writes of [pixel], where both planes have the byte. *)
Lemma pixel_pair_painted (x y : Z) (v1 v2 : bool) (self : SSD1681) :
  in_canvas self x y = true ->
  (Z.to_nat (_map_coordinates self x y).1 < length (buffer self))%nat ->
  (Z.to_nat (_map_coordinates self x y).1 < length (red_buffer self))%nat ->
  bind (_set_pixel_buffer x y Primary v1) (fun _ => _set_pixel_buffer x y Accent v2) self
  = Ok tt (mkSSD1681 (board self) (width self) (height self) (orientation self)
             (_buffer_size self)
             (alter (fun old => updated_byte v1 old (_map_coordinates self x y).2)
                    (Z.to_nat (_map_coordinates self x y).1) (buffer self))
             (alter (fun old => updated_byte v2 old (_map_coordinates self x y).2)
                    (Z.to_nat (_map_coordinates self x y).1) (red_buffer self))).
Proof.
  intros Hin H1 H2.
  pose proof (map_coordinates_byte_nonneg self x y Hin) as Hnn.
  destruct (lookup_lt_is_Some_2 _ _ H1) as [old1 Hold1].
  destruct (lookup_lt_is_Some_2 _ _ H2) as [old2 Hold2].
  pose proof (set_pixel_buffer_inside x y Primary v1 self old1 Hin Hnn Hold1) as W1.
  rewrite (bind_ok _ _ _ _ _ W1).
  match type of W1 with
  | _ = Ok tt ?self1 =>
    pose proof (set_pixel_buffer_inside x y Accent v2 self1 old2) as W2
  end.
  rewrite in_canvas_set_plane, map_coordinates_set_plane in W2.
  rewrite (W2 Hin Hnn Hold2). cbn [set_plane get_plane board width height orientation
                                    _buffer_size buffer red_buffer].
  f_equal. f_equal.
  - rewrite <- (insert_as_alter _ _ (fun old => updated_byte v1 old _) old1 Hold1).
    unfold updated_byte. now destruct v1.
  - rewrite <- (insert_as_alter _ _ (fun old => updated_byte v2 old _) old2 Hold2).
    unfold updated_byte. now destruct v2.
Qed.

Lemma pixel_painted (x y color : Z) (self : SSD1681) :
  in_canvas self x y = true ->
  (Z.to_nat (_map_coordinates self x y).1 < length (buffer self))%nat ->
  (Z.to_nat (_map_coordinates self x y).1 < length (red_buffer self))%nat ->
  pixel x y color self = Ok tt (painted color x y self).
Proof.
  intros Hin H1 H2. unfold painted.
  destruct (pixel_unfold x y color self) as [[Hc ->] | [[Hc ->] | [[Hc ->] | (Hw & Hb & Hr & ->)]]];
    destruct (color_bits_cases color) as [[Hc' ->] | [[Hc' ->] | [[Hc' ->] | (Hw' & Hb' & Hr' & ->)]]];
    try (exfalso; unfold COLOR_WHITE, COLOR_BLACK, COLOR_RED in *; lia);
    try reflexivity;
    rewrite pixel_pair_painted by assumption;
    now destruct (_map_coordinates self x y).
Qed.

Lemma supported_in_range (self : SSD1681) (x y : Z) :
  supported self -> in_canvas self x y = true ->
  (Z.to_nat (_map_coordinates self x y).1 < length (buffer self))%nat /\
  (Z.to_nat (_map_coordinates self x y).1 < length (red_buffer self))%nat.
Proof.
  intros ((Hsize & Hb & Hr) & Hal & Hsq) Hin.
  pose proof (byte_index_bound self x y Hal Hsq Hin) as Hlt.
  pose proof (map_coordinates_byte_nonneg self x y Hin) as Hnn.
  rewrite <- Hsize in Hlt. lia.
Qed.

Lemma painted_same_shape (color x y : Z) (self : SSD1681) :
  same_shape self (painted color x y self).
Proof.
  unfold painted. destruct (color_bits color) as [[v1 v2] |]; [| apply same_shape_refl].
  destruct (_map_coordinates self x y). unfold same_shape. simpl.
  rewrite !length_alter. tauto.
Qed.

(** On a supported session [pixel] returns, for every coordinate and every
    colour value. *)
Lemma pixel_returns (x y color : Z) : returns supported (pixel x y color).
Proof.
  intros self Hs. destruct (in_canvas self x y) eqn:Hin.
  - destruct (supported_in_range self x y Hs Hin) as [H1 H2].
    exists tt, (painted color x y self). split; [now apply pixel_painted |].
    exact (same_shape_supported _ _ (painted_same_shape color x y self) Hs).
  - exists tt, self. split; [now apply pixel_off_canvas | exact Hs].
Qed.

Lemma painted_map_coordinates (color x y x' y' : Z) (self : SSD1681) :
  _map_coordinates (painted color x y self) x' y' = _map_coordinates self x' y'.
Proof. apply same_shape_map_coordinates, painted_same_shape. Qed.

Lemma painted_in_canvas (color x y x' y' : Z) (self : SSD1681) :
  in_canvas (painted color x y self) x' y' = in_canvas self x' y'.
Proof. apply same_shape_in_canvas, painted_same_shape. Qed.

Lemma painted_lengths (color x y : Z) (self : SSD1681) :
  length (buffer (painted color x y self)) = length (buffer self) /\
  length (red_buffer (painted color x y self)) = length (red_buffer self).
Proof. destruct (painted_same_shape color x y self) as (_ & _ & _ & _ & _ & Hb & Hr). tauto. Qed.

Lemma alter_updated_twice (b : list Z) (i : nat) (k : Z) (v v' : bool) :
  0 <= k < 8 ->
  alter (fun old => updated_byte v' old k) i (alter (fun old => updated_byte v old k) i b)
  = alter (fun old => updated_byte v' old k) i b.
Proof.
  intros Hk. rewrite list_alter_alter_eq. apply list_alter_ext; [| reflexivity].
  intros old _. simpl. now apply updated_byte_twice.
Qed.

Lemma alter_updated_swap (b : list Z) (i i' k k' : Z) (v v' : bool) :
  0 <= i -> 0 <= i' -> 0 <= k < 8 -> 0 <= k' < 8 -> (i, k) <> (i', k') ->
  alter (fun old => updated_byte v' old k') (Z.to_nat i')
        (alter (fun old => updated_byte v old k) (Z.to_nat i) b)
  = alter (fun old => updated_byte v old k) (Z.to_nat i)
          (alter (fun old => updated_byte v' old k') (Z.to_nat i') b).
Proof.
  intros Hi Hi' Hk Hk' Hne. destruct (Z.eq_dec i i') as [<- | Hii].
  - assert (k <> k') as Hkk by congruence.
    rewrite !list_alter_alter_eq. apply list_alter_ext; [| reflexivity].
    intros old _. simpl. now apply updated_byte_swap.
  - apply list_alter_alter_ne. lia.
Qed.

(** Painting a pixel twice is painting it with the later colour. *)
Lemma painted_twice (color color' x y : Z) (self : SSD1681) :
  color_bits color' <> None ->
  painted color' x y (painted color x y self) = painted color' x y self.
Proof.
  intros Hknown. unfold painted at 1 3. rewrite painted_map_coordinates.
  destruct (color_bits color') as [[v1' v2'] |]; [| contradiction].
  pose proof (map_coordinates_bit self x y) as Hbit.
  unfold painted. destruct (color_bits color) as [[v1 v2] |]; [| reflexivity].
  destruct (_map_coordinates self x y) as [i k]. simpl in *.
  now rewrite !alter_updated_twice.
Qed.

(** Painting two different pixels, in either order. *)
Lemma painted_swap (color color' x y x' y' : Z) (self : SSD1681) :
  byte_aligned self -> square_for_quarter_turns self ->
  in_canvas self x y = true -> in_canvas self x' y' = true ->
  (x, y) <> (x', y') ->
  painted color' x' y' (painted color x y self)
  = painted color x y (painted color' x' y' self).
Proof.
  intros Hal Hsq Hin Hin' Hne.
  assert (_map_coordinates self x y <> _map_coordinates self x' y') as Hmap.
  { intros Heq. apply Hne.
    destruct (map_coordinates_injective self x y x' y' Hal Hsq Hin Hin' Heq). congruence. }
  pose proof (map_coordinates_byte_nonneg self x y Hin) as Hnn.
  pose proof (map_coordinates_byte_nonneg self x' y' Hin') as Hnn'.
  pose proof (map_coordinates_bit self x y) as Hbit.
  pose proof (map_coordinates_bit self x' y') as Hbit'.
  unfold painted at 1 3. rewrite !painted_map_coordinates.
  unfold painted.
  destruct (color_bits color') as [[v1' v2'] |], (color_bits color) as [[v1 v2] |];
    try reflexivity.
  destruct (_map_coordinates self x y) as [i k].
  destruct (_map_coordinates self x' y') as [i' k']. simpl in *.
  f_equal; now apply alter_updated_swap.
Qed.

(** ** Pixels: safety, independence, overwriting, order *)

(** X1: on a supported session (consistent fields, width a multiple of 8,
    square panel for the quarter turns) [pixel] never raises, whatever the
    coordinates and the colour value, and leaves a supported session with
    the same geometry and plane lengths. *)
Theorem pixel_never_raises (self : SSD1681) (x y color : Z) :
  supported self ->
  exists self', pixel x y color self = Ok tt self' /\
                supported self' /\ same_shape self self'.
Proof.
  intros Hs. destruct (pixel_returns x y color self Hs) as ([] & s & Hrun & Hs').
  exists s. split; [exact Hrun |]. split; [exact Hs' |].
  pose proof (preserves_pixel x y color self) as Hsame. now rewrite Hrun in Hsame.
Qed.

Lemma pixel_never_raises_witness :
  let self := create_display idle_board ORIENTATION_90 200 200 in
  exists self', pixel 250 (-3) COLOR_RED self = Ok tt self' /\
                supported self' /\ same_shape self self'.
Proof.
  apply (pixel_never_raises (create_display idle_board ORIENTATION_90 200 200) 250 (-3) COLOR_RED).
  split; [apply constructor_well_formed |]. split; [reflexivity |]. intros _. reflexivity.
Defined.

(** X2: on a panel with whole-byte rows, square for the quarter turns,
    [pixel(x, y, color)] leaves the plane bits of every other pixel of the
    canvas as they were, whether it returns or raises. *)
Theorem pixel_leaves_other_pixels (self : SSD1681) (x y color x' y' : Z) :
  byte_aligned self ->
  square_for_quarter_turns self ->
  in_canvas self x' y' = true ->
  (x', y') <> (x, y) ->
  plane_bits (final (pixel x y color self)) x' y' = plane_bits self x' y'.
Proof.
  intros Hal Hsq Hin Hne.
  destruct (pixel_untouched x y color self) as [_ H].
  apply H; try assumption. intros [-> ->]. now apply Hne.
Qed.

Lemma pixel_leaves_other_pixels_witness :
  let self := create_display idle_board ORIENTATION_0 200 200 in
  plane_bits (final (pixel 10 20 COLOR_BLACK self)) 11 20 = plane_bits self 11 20.
Proof.
  apply (pixel_leaves_other_pixels (create_display idle_board ORIENTATION_0 200 200)
                                   10 20 COLOR_BLACK 11 20).
  - reflexivity.
  - intros _. reflexivity.
  - reflexivity.
  - discriminate.
Defined.

(** X3: when both planes have the same length, painting a pixel and then
    painting it again with one of the three colours is the same as painting
    it once with the later colour: same outcome, same planes. *)
Theorem pixel_last_write_wins (self : SSD1681) (x y color color' : Z) :
  length (buffer self) = length (red_buffer self) ->
  color' = COLOR_WHITE \/ color' = COLOR_BLACK \/ color' = COLOR_RED ->
  (pixel x y color ;; pixel x y color')%py self = pixel x y color' self.
Proof.
  intros Hlen Hknown.
  assert (color_bits color' <> None) as Hbits.
  { destruct (color_bits_cases color') as [[_ ->] | [[_ ->] | [[_ ->] | (? & ? & ? & _)]]];
      try discriminate. destruct Hknown as [? | [? | ?]]; contradiction. }
  destruct (in_canvas self x y) eqn:Hin.
  - pose proof (map_coordinates_byte_nonneg self x y Hin) as Hnn.
    destruct (Z_lt_le_dec (_map_coordinates self x y).1 (Z.of_nat (length (buffer self))))
      as [Hlt | Hge].
    + assert (Z.to_nat (_map_coordinates self x y).1 < length (buffer self))%nat as H1 by lia.
      assert (Z.to_nat (_map_coordinates self x y).1 < length (red_buffer self))%nat as H2 by lia.
      rewrite (bind_ok _ _ _ _ _ (pixel_painted x y color self Hin H1 H2)).
      destruct (painted_lengths color x y self) as [Hb Hr].
      rewrite !pixel_painted;
        rewrite ?painted_in_canvas, ?painted_map_coordinates, ?Hb, ?Hr; try assumption.
      now rewrite painted_twice.
    + rewrite (pixel_beyond x y color' self Hknown Hin Hge).
      destruct (pixel_unfold x y color self) as [[Hc _] | [[Hc _] | [[Hc _] | (Hw & Hb & Hr & Hrun)]]].
      * apply bind_raised, pixel_beyond; auto.
      * apply bind_raised, pixel_beyond; auto.
      * apply bind_raised, pixel_beyond; auto.
      * rewrite (bind_ok _ _ _ _ _ Hrun). now apply pixel_beyond.
  - rewrite (bind_ok _ _ _ _ _ (pixel_off_canvas x y color self Hin)). reflexivity.
Qed.

Lemma pixel_last_write_wins_witness :
  let self := create_display idle_board ORIENTATION_0 200 200 in
  (pixel 3 4 COLOR_RED ;; pixel 3 4 COLOR_BLACK)%py self = pixel 3 4 COLOR_BLACK self.
Proof.
  apply (pixel_last_write_wins (create_display idle_board ORIENTATION_0 200 200)
                               3 4 COLOR_RED COLOR_BLACK).
  - vm_compute. reflexivity.
  - right. left. reflexivity.
Defined.

(** X4: on a supported session two different pixels can be painted in
    either order: same outcome, same planes. *)
Theorem pixel_order_irrelevant (self : SSD1681) (x y color x' y' color' : Z) :
  supported self ->
  (x, y) <> (x', y') ->
  (pixel x y color ;; pixel x' y' color')%py self
  = (pixel x' y' color' ;; pixel x y color)%py self.
Proof.
  intros Hs Hne. pose proof Hs as (_ & Hal & Hsq).
  destruct (in_canvas self x y) eqn:Hin, (in_canvas self x' y') eqn:Hin'.
  - destruct (supported_in_range self x y Hs Hin) as [H1 H2].
    destruct (supported_in_range self x' y' Hs Hin') as [H1' H2'].
    rewrite (bind_ok _ _ _ _ _ (pixel_painted x y color self Hin H1 H2)).
    rewrite (bind_ok _ _ _ _ _ (pixel_painted x' y' color' self Hin' H1' H2')).
    destruct (painted_lengths color x y self) as [Hb Hr].
    destruct (painted_lengths color' x' y' self) as [Hb' Hr'].
    rewrite !pixel_painted;
      rewrite ?painted_in_canvas, ?painted_map_coordinates, ?Hb, ?Hr, ?Hb', ?Hr';
      try assumption.
    now rewrite painted_swap.
  - destruct (supported_in_range self x y Hs Hin) as [H1 H2].
    rewrite (bind_ok _ _ _ _ _ (pixel_painted x y color self Hin H1 H2)).
    rewrite (bind_ok _ _ _ _ _ (pixel_off_canvas x' y' color' self Hin')).
    rewrite (pixel_off_canvas x' y' color' (painted color x y self))
      by now rewrite painted_in_canvas.
    now rewrite pixel_painted.
  - destruct (supported_in_range self x' y' Hs Hin') as [H1' H2'].
    rewrite (bind_ok _ _ _ _ _ (pixel_off_canvas x y color self Hin)).
    rewrite (bind_ok _ _ _ _ _ (pixel_painted x' y' color' self Hin' H1' H2')).
    rewrite (pixel_off_canvas x y color (painted color' x' y' self))
      by now rewrite painted_in_canvas.
    now rewrite pixel_painted.
  - rewrite (bind_ok _ _ _ _ _ (pixel_off_canvas x y color self Hin)).
    rewrite (bind_ok _ _ _ _ _ (pixel_off_canvas x' y' color' self Hin')).
    now rewrite pixel_off_canvas, pixel_off_canvas.
Qed.

Lemma pixel_order_irrelevant_witness :
  let self := create_display idle_board ORIENTATION_270 200 200 in
  (pixel 0 0 COLOR_RED ;; pixel 1 0 COLOR_BLACK)%py self
  = (pixel 1 0 COLOR_BLACK ;; pixel 0 0 COLOR_RED)%py self.
Proof.
  apply (pixel_order_irrelevant (create_display idle_board ORIENTATION_270 200 200)
                                0 0 COLOR_RED 1 0 COLOR_BLACK).
  - split; [apply constructor_well_formed |]. split; [reflexivity |]. intros _. reflexivity.
  - discriminate.
Defined.

(** ** Text: safety and footprint *)

Lemma elem_of_range (n i : Z) : i ∈ range n <-> 0 <= i < n.
Proof. unfold range. rewrite elem_of_seqZ. lia. Qed.

Lemma good_font_rows (FONT_8X8 : gmap ascii (list Z)) (char : ascii) (blank : list Z)
      (col : Z) :
  good_font FONT_8X8 ->
  FONT_8X8 !! " "%char = Some blank ->
  0 <= col < 8 ->
  exists bits, getitem (default blank (FONT_8X8 !! char)) (7 - col) = Some bits.
Proof.
  intros [_ Hrows] Hblank Hcol.
  assert (8 <= length (default blank (FONT_8X8 !! char)))%nat as Hlen.
  { destruct (FONT_8X8 !! char) as [glyph |] eqn:Hc; simpl; eauto. }
  rewrite getitem_in_range by lia.
  apply lookup_lt_is_Some_2. lia.
Qed.

Lemma draw_char_returns (FONT_8X8 : gmap ascii (list Z)) (char : ascii)
      (x y color font_size : Z) :
  good_font FONT_8X8 ->
  returns supported (_draw_char FONT_8X8 char x y color font_size).
Proof.
  intros Hfont. pose proof Hfont as [[blank Hblank] _].
  unfold _draw_char. rewrite Hblank.
  apply returns_for_each. intros row _.
  apply returns_for_each. intros col Hcol%elem_of_range.
  destruct (good_font_rows FONT_8X8 char blank col Hfont Hblank Hcol) as [bits ->].
  destruct (_ =? 0); [apply returns_ret |].
  apply returns_for_each. intros scale_row _.
  apply returns_for_each. intros scale_col _.
  apply pixel_returns.
Qed.

Lemma text_loop_returns (FONT_8X8 : gmap ascii (list Z)) (chars : list (Z * ascii))
      (x y color font_size char_width : Z) :
  good_font FONT_8X8 ->
  returns supported (text_loop FONT_8X8 chars x y color font_size char_width).
Proof.
  intros Hfont. induction chars as [| [char_index char] rest IH]; simpl.
  - apply returns_ret.
  - intros self Hs. destruct (_ >? _); [now exists tt, self |].
    revert self Hs. apply returns_bind; [now apply draw_char_returns | intros _; exact IH].
Qed.

(** The pixels [_draw_char] writes lie in the cell of the character. *)
Lemma draw_char_untouched (FONT_8X8 : gmap ascii (list Z)) (char : ascii)
      (x y color font_size : Z) :
  keeps (untouched_outside (in_cell x y font_size))
        (_draw_char FONT_8X8 char x y color font_size).
Proof.
  pose proof (untouched_outside_refl (in_cell x y font_size)) as Hrefl.
  pose proof (untouched_outside_trans (in_cell x y font_size)) as Htrans.
  unfold _draw_char. destruct (FONT_8X8 !! " "%char); [| now apply keeps_raise].
  apply keeps_for_each; try assumption. intros row Hrow%elem_of_range.
  apply keeps_for_each; try assumption. intros col Hcol%elem_of_range.
  destruct (getitem _ _); [| now apply keeps_raise].
  destruct (_ =? 0); [now apply keeps_ret |].
  apply keeps_for_each; try assumption. intros scale_row Hsr%elem_of_range.
  apply keeps_for_each; try assumption. intros scale_col Hsc%elem_of_range.
  intros self. eapply untouched_outside_mono; [| apply pixel_untouched].
  intros px py [-> ->]. unfold in_cell. nia.
Qed.

(** The pixels [text] writes lie at or right of [x], in the rows of the
    line. *)
Lemma text_loop_untouched (FONT_8X8 : gmap ascii (list Z)) (x y color font_size : Z)
      (chars : list ascii) :
  forall i : Z,
    0 <= i ->
    keeps (untouched_outside (fun px py => x <= px /\ y <= py < y + 8 * font_size))
          (text_loop FONT_8X8 (enumerate_from i chars) x y color font_size (8 * font_size)).
Proof.
  induction chars as [| c rest IH]; intros i Hi; simpl.
  - apply keeps_ret, untouched_outside_refl.
  - intros self. destruct (_ >? _); [apply untouched_outside_refl |].
    revert self. apply keeps_bind; [apply untouched_outside_trans | | intros _; apply IH; lia].
    intros self. eapply untouched_outside_mono; [| apply draw_char_untouched].
    intros px py [Hx Hy]. split; [nia | exact Hy].
Qed.

Lemma for_each_nothing {A} (items : list A) (body : A -> M unit) (self : SSD1681) :
  (forall i, i ∈ items -> body i self = Ok tt self) ->
  for_each items body self = Ok tt self.
Proof.
  induction items as [| i rest IH]; intros Hbody; [reflexivity |].
  simpl. rewrite (bind_ok _ _ _ _ _ (Hbody i ltac:(left))).
  apply IH. intros j Hj. apply Hbody. now right.
Qed.

(** A glyph without bits, or a font size that is not positive: nothing is
    drawn. *)
Lemma draw_char_nothing (FONT_8X8 : gmap ascii (list Z)) (char : ascii) (blank : list Z)
      (x y color font_size : Z) (self : SSD1681) :
  good_font FONT_8X8 ->
  FONT_8X8 !! " "%char = Some blank ->
  font_size <= 0 \/ Forall (fun bits => bits = 0) (default blank (FONT_8X8 !! char)) ->
  _draw_char FONT_8X8 char x y color font_size self = Ok tt self.
Proof.
  intros Hfont Hblank Hnothing. unfold _draw_char. rewrite Hblank.
  apply for_each_nothing. intros row _.
  apply for_each_nothing. intros col Hcol%elem_of_range.
  destruct (good_font_rows FONT_8X8 char blank col Hfont Hblank Hcol) as [bits Hbits].
  rewrite Hbits. destruct Hnothing as [Hsize | Hzero].
  - destruct (_ =? 0); [reflexivity |].
    unfold range. now rewrite seqZ_nil by lia.
  - rewrite getitem_in_range in Hbits.
    + rewrite (Forall_lookup_1 _ _ _ _ Hzero Hbits). reflexivity.
    + unfold getitem in Hbits.
      destruct (py_index _ _) as [k |] eqn:Hk; [| discriminate].
      unfold py_index in Hk.
      destruct ((0 <=? 7 - col) && (7 - col <? Z.of_nat (length (default blank (FONT_8X8 !! char)))))
               eqn:E; [apply andb_true_iff in E; lia |].
      destruct ((_ <=? _) && (7 - col <? 0)) eqn:E'; [| discriminate].
      apply andb_true_iff in E'. lia.
Qed.

Lemma sample_font_good : good_font sample_font.
Proof.
  split; [exists [0; 0; 0; 0; 0; 0; 0; 0]; reflexivity |].
  intros c glyph Hc.
  assert (glyph = [0; 0; 0; 0; 0; 0; 0; 0] \/ glyph = [0x18; 0x3C; 0x66; 0x7E; 0x66; 0x66; 0x66; 0x00])
    as [-> | ->]; [| simpl; lia | simpl; lia].
  unfold sample_font in Hc.
  apply elem_of_list_to_map_2 in Hc.
  repeat (apply elem_of_cons in Hc; destruct Hc as [[= _ <-] | Hc]; [tauto |]).
  now apply elem_of_nil in Hc.
Qed.

(** ** What a drawing paints *)

Lemma paints_ext (covers covers' : Z -> Z -> bool) (ink : bool * bool) (c : M unit) :
  (forall px py, covers px py = covers' px py) -> paints covers ink c -> paints covers' ink c.
Proof.
  intros Heq Hc self Hs. destruct (Hc self Hs) as (s & Hrun & Hsame & Hbits).
  exists s. split; [exact Hrun |]. split; [exact Hsame |].
  intros px py Hin. rewrite <- Heq. now apply Hbits.
Qed.

Lemma paints_ret (ink : bool * bool) : paints (fun _ _ => false) ink (ret tt).
Proof.
  intros self Hs. exists self. split; [reflexivity |]. split; [apply same_shape_refl |].
  reflexivity.
Qed.

Lemma paints_bind (P Q : Z -> Z -> bool) (ink : bool * bool) (c k : M unit) :
  paints P ink c -> paints Q ink k ->
  paints (fun px py => P px py || Q px py) ink (bind c (fun _ => k)).
Proof.
  intros Hc Hk self Hs.
  destruct (Hc self Hs) as (s1 & Hrun1 & Hsame1 & Hbits1).
  destruct (Hk s1 (same_shape_supported _ _ Hsame1 Hs)) as (s2 & Hrun2 & Hsame2 & Hbits2).
  exists s2. split; [now rewrite (bind_ok _ _ _ _ _ Hrun1) |].
  split; [exact (same_shape_trans _ _ _ Hsame1 Hsame2) |].
  intros px py Hin.
  rewrite Hbits2 by now rewrite (same_shape_in_canvas self s1).
  rewrite Hbits1 by assumption.
  now destruct (P px py), (Q px py).
Qed.

Lemma paints_for_each {A} (items : list A) (P : A -> Z -> Z -> bool) (ink : bool * bool)
      (body : A -> M unit) :
  (forall i, i ∈ items -> paints (P i) ink (body i)) ->
  paints (fun px py => existsb (fun i => P i px py) items) ink (for_each items body).
Proof.
  induction items as [| i rest IH]; intros Hbody; simpl.
  - apply paints_ret.
  - apply paints_bind; [apply Hbody; left |].
    apply IH. intros j Hj. apply Hbody. now right.
Qed.

(** One pixel, in one of the three colours. *)
Lemma paints_pixel (x y color : Z) (ink : bool * bool) :
  color_bits color = Some ink ->
  paints (fun px py => (px =? x) && (py =? y)) ink (pixel x y color).
Proof.
  intros Hink self Hs. destruct (in_canvas self x y) eqn:Hin.
  - destruct (supported_in_range self x y Hs Hin) as [H1 H2].
    pose proof (pixel_untouched x y color self) as [Hsame Hframe].
    pose proof Hs as ((Hsize & Hb & Hr) & Hal & Hsq).
    assert ((_map_coordinates self x y).1 < _buffer_size self) as Hlt.
    { pose proof (map_coordinates_byte_nonneg self x y Hin). lia. }
    assert (exists s, pixel x y color self = Ok tt s /\ plane_bits s x y = Some ink)
      as (s & Hrun & Hread).
    { destruct (pixel_unfold x y color self)
        as [[Hc Hp] | [[Hc Hp] | [[Hc Hp] | (Hw & Hk & Hd & _)]]];
        destruct (color_bits_cases color)
          as [[Hc' Hb'] | [[Hc' Hb'] | [[Hc' Hb'] | (Hw' & Hk' & Hd' & Hb')]]];
        try (exfalso; unfold COLOR_WHITE, COLOR_BLACK, COLOR_RED in *; lia);
        try (rewrite Hb' in Hink; discriminate);
        rewrite Hb' in Hink; injection Hink as <-; rewrite Hp.
      - destruct (pixel_pair_inside x y true false self (conj Hb Hr) Hin Hlt)
          as (s & ? & _ & ?); eauto.
      - destruct (pixel_pair_inside x y false false self (conj Hb Hr) Hin Hlt)
          as (s & ? & _ & ?); eauto.
      - destruct (pixel_pair_inside x y true true self (conj Hb Hr) Hin Hlt)
          as (s & ? & _ & ?); eauto. }
    rewrite Hrun in Hsame, Hframe. cbn [final] in Hsame, Hframe.
    exists s. split; [exact Hrun |]. split; [exact Hsame |].
    intros px py Hpin.
    destruct (Z.eqb_spec px x) as [-> | Hx]; [destruct (Z.eqb_spec py y) as [-> | Hy] |];
      cbn [andb].
    + exact Hread.
    + apply Hframe; try assumption. intros [_ ?]. contradiction.
    + apply Hframe; try assumption. intros [? _]. contradiction.
  - exists self. split; [now apply pixel_off_canvas |]. split; [apply same_shape_refl |].
    intros px py Hpin.
    destruct (Z.eqb_spec px x) as [-> | Hx]; [destruct (Z.eqb_spec py y) as [-> | Hy] |];
      cbn [andb]; try reflexivity.
    congruence.
Qed.

Lemma existsb_range (n : Z) (f : Z -> bool) :
  existsb f (range n) = true <-> exists i, 0 <= i < n /\ f i = true.
Proof.
  rewrite existsb_exists. split; intros (i & Hi & Hf); exists i; split; try assumption.
  - now apply elem_of_range, list_elem_of_In.
  - now apply list_elem_of_In, elem_of_range.
Qed.

(** The [font_size] by [font_size] pixels of one block. *)
Lemma block_covers (x y font_size j row px py : Z) :
  existsb (fun scale_row =>
    existsb (fun scale_col =>
      (px =? x + j * font_size + scale_col) && (py =? y + row * font_size + scale_row))
            (range font_size))
          (range font_size)
  = (x + j * font_size <=? px) && (px <? x + j * font_size + font_size)
    && ((y + row * font_size <=? py) && (py <? y + row * font_size + font_size)).
Proof.
  apply eq_true_iff_eq. rewrite existsb_range, !andb_true_iff. split.
  - intros (sr & Hsr & (sc & Hsc & H)%existsb_range). apply andb_true_iff in H. lia.
  - intros H. exists (py - (y + row * font_size)). split; [lia |].
    apply existsb_range. exists (px - (x + j * font_size)). split; [lia |].
    apply andb_true_iff. lia.
Qed.

(** The lit blocks of a glyph, found by enumerating rows and columns as
    [_draw_char] does, or by dividing the offset of the pixel by the block
    size. *)
Lemma glyph_covers_loops (char_data : list Z) (x y font_size px py : Z) :
  existsb (fun row =>
    existsb (fun col =>
      glyph_lit char_data (7 - col) row
      && ((x + (7 - col) * font_size <=? px) && (px <? x + (7 - col) * font_size + font_size)
          && ((y + row * font_size <=? py) && (py <? y + row * font_size + font_size))))
            (range 8))
          (range 8)
  = glyph_covers char_data x y font_size px py.
Proof.
  apply eq_true_iff_eq. unfold glyph_covers. rewrite existsb_range, !andb_true_iff. split.
  - intros (row & Hrow & (col & Hcol & H)%existsb_range).
    rewrite !andb_true_iff in H. destruct H as (Hlit & Hx & Hy).
    assert (0 < font_size) as Hpos by lia.
    assert ((px - x) / font_size = 7 - col) as ->.
    { symmetry. apply (Z.div_unique _ _ _ (px - x - (7 - col) * font_size)); lia. }
    assert ((py - y) / font_size = row) as ->.
    { symmetry. apply (Z.div_unique _ _ _ (py - y - row * font_size)); lia. }
    split; [nia | exact Hlit].
  - intros ((Hx & Hy) & Hlit).
    assert (0 < font_size) as Hpos by lia.
    pose proof (Z.mul_div_le (px - x) font_size Hpos) as Hx1.
    pose proof (Z.mul_succ_div_gt (px - x) font_size Hpos) as Hx2.
    pose proof (Z.mul_div_le (py - y) font_size Hpos) as Hy1.
    pose proof (Z.mul_succ_div_gt (py - y) font_size Hpos) as Hy2.
    set (j := (px - x) / font_size) in *. set (row := (py - y) / font_size) in *.
    assert (0 <= j < 8) as Hj by nia.
    assert (0 <= row < 8) as Hrow by nia.
    exists row. split; [exact Hrow |].
    apply existsb_range. exists (7 - j). split; [lia |].
    replace (7 - (7 - j)) with j by lia.
    rewrite !andb_true_iff. split; [exact Hlit |]. nia.
Qed.

Lemma glyph_of_blank (FONT_8X8 : gmap ascii (list Z)) (char : ascii) (blank : list Z) :
  FONT_8X8 !! " "%char = Some blank ->
  glyph_of FONT_8X8 char = default blank (FONT_8X8 !! char).
Proof. intros H. unfold glyph_of. now rewrite H. Qed.

(** [_draw_char] paints the lit blocks of the glyph, and nothing else. *)
Lemma draw_char_paints (FONT_8X8 : gmap ascii (list Z)) (char : ascii)
      (x y color font_size : Z) (ink : bool * bool) :
  good_font FONT_8X8 ->
  color_bits color = Some ink ->
  paints (glyph_covers (glyph_of FONT_8X8 char) x y font_size) ink
         (_draw_char FONT_8X8 char x y color font_size).
Proof.
  intros Hfont Hink. pose proof Hfont as [[blank Hblank] _].
  unfold _draw_char. rewrite Hblank, (glyph_of_blank _ _ _ Hblank).
  set (char_data := default blank (FONT_8X8 !! char)).
  eapply paints_ext; [apply glyph_covers_loops |].
  apply (paints_for_each (range 8)
           (fun row px py =>
              existsb (fun col =>
                glyph_lit char_data (7 - col) row
                && ((x + (7 - col) * font_size <=? px)
                    && (px <? x + (7 - col) * font_size + font_size)
                    && ((y + row * font_size <=? py)
                        && (py <? y + row * font_size + font_size))))
                      (range 8))).
  intros row _.
  apply (paints_for_each (range 8)
           (fun col px py =>
              glyph_lit char_data (7 - col) row
              && ((x + (7 - col) * font_size <=? px)
                  && (px <? x + (7 - col) * font_size + font_size)
                  && ((y + row * font_size <=? py)
                      && (py <? y + row * font_size + font_size))))).
  intros col Hcol%elem_of_range.
  destruct (good_font_rows FONT_8X8 char blank col Hfont Hblank Hcol) as [bits Hbits].
  fold char_data in Hbits. unfold glyph_lit. rewrite Hbits.
  destruct (Z.land bits (Z.shiftl 1 row) =? 0); cbn [negb andb].
  - apply paints_ret.
  - eapply paints_ext; [intros px py; apply block_covers |].
    apply (paints_for_each (range font_size)
             (fun scale_row px py =>
                existsb (fun scale_col =>
                  (px =? x + (7 - col) * font_size + scale_col)
                  && (py =? y + row * font_size + scale_row))
                        (range font_size))).
    intros scale_row _.
    apply (paints_for_each (range font_size)
             (fun scale_col px py =>
                (px =? x + (7 - col) * font_size + scale_col)
                && (py =? y + row * font_size + scale_row))).
    intros scale_col _. now apply paints_pixel.
Qed.

(** [text] paints the lit blocks of the characters that fit, character
    [i] in the cell at [x + i * 8 * font_size], and nothing else. *)
Lemma text_loop_paints (FONT_8X8 : gmap ascii (list Z)) (x y color font_size : Z)
      (ink : bool * bool) (chars : list ascii) :
  good_font FONT_8X8 ->
  color_bits color = Some ink ->
  forall (i : Z) (self : SSD1681),
    supported self ->
    exists self',
      text_loop FONT_8X8 (enumerate_from i chars) x y color font_size (8 * font_size) self
      = Ok tt self' /\
      same_shape self self' /\
      forall px py,
        in_canvas self px py = true ->
        plane_bits self' px py
        = if text_covers FONT_8X8
               (enumerate_from i
                  (take (rendered_count (width self) x font_size i (length chars)) chars))
               x y font_size px py
          then Some ink else plane_bits self px py.
Proof.
  intros Hfont Hink. induction chars as [| c rest IH]; intros i self Hs.
  - exists self. split; [reflexivity |]. split; [apply same_shape_refl | reflexivity].
  - cbn [enumerate_from text_loop length rendered_count].
    rewrite right_edge_as_code.
    destruct (right_edge x font_size i >? width self).
    + exists self. split; [reflexivity |]. split; [apply same_shape_refl | reflexivity].
    + destruct (draw_char_paints FONT_8X8 c (x + i * (8 * font_size)) y color font_size
                                 ink Hfont Hink self Hs) as (s1 & Hrun1 & Hsame1 & Hbits1).
      destruct (IH (i + 1) s1 (same_shape_supported _ _ Hsame1 Hs))
        as (s2 & Hrun2 & Hsame2 & Hbits2).
      exists s2. split; [now rewrite (bind_ok _ _ _ _ _ Hrun1) |].
      split; [exact (same_shape_trans _ _ _ Hsame1 Hsame2) |].
      intros px py Hin.
      rewrite Hbits2 by now rewrite (same_shape_in_canvas self s1).
      rewrite Hbits1 by assumption.
      destruct Hsame1 as (_ & Hw & _). rewrite Hw.
      cbn [take enumerate_from text_covers existsb].
      fold (text_covers FONT_8X8
              (enumerate_from (i + 1)
                 (take (rendered_count (width self) x font_size (i + 1) (length rest)) rest))
              x y font_size px py).
      now destruct (glyph_covers _ _ _ _ _ _), (text_covers _ _ _ _ _ _ _).
Qed.

(** ** Text layout, down to the plane bits *)

Example text_paints_lit_blocks :
  let self := create_display idle_board ORIENTATION_180 16 8 in
  glyph_covers (glyph_of sample_font "A") 0 0 1 0 3 = true /\
  glyph_covers (glyph_of sample_font "A") 0 0 1 0 0 = false /\
  plane_bits (final (text sample_font "A" 0 0 COLOR_BLACK 1 self)) 0 3 = Some (false, false) /\
  plane_bits (final (text sample_font "A" 0 0 COLOR_BLACK 1 self)) 0 0 = Some (true, false) /\
  plane_bits (final (text sample_font "A" 0 0 COLOR_RED 2 self)) 1 7 = Some (true, true).
Proof. vm_compute. repeat split; reflexivity. Qed.

(** C6: [text] draws, in order and with character [i] at [x + i*8*scale],
    exactly the characters before the first one whose right edge
    [x + (i+1)*8*scale] exceeds the canvas width, and nothing after it: all
    the drawn ones fit, the first dropped one does not; for a positive scale
    that is min(length, floor((width - x) / (8*scale))) characters (none
    when that is negative); and on a canvas of width 16,
    [text("ABCDEFGH", 0, 0, COLOR_BLACK, 2)] is the drawing of the first
    character alone.  In the planes: on a supported session, with a font
    table that has the blank and eight rows per glyph and one of the three
    colours, [text] returns, every canvas pixel in a lit block of one of
    those characters (character [i] in the cell of side [8*scale] at
    [x + i*8*scale], cells side by side without a gap) has the plane bits of
    the colour, and every other canvas pixel keeps its plane bits. *)
Theorem text_layout (FONT_8X8 : gmap ascii (list Z)) (string : string)
        (x y color scale : Z) (self : SSD1681) :
  text FONT_8X8 string x y color scale self
  = text_spec FONT_8X8 string x y color scale self /\
  (let len := length (list_ascii_of_string string) in
   let n := rendered_count (width self) x scale 0 len in
   (n <= len)%nat /\
   (forall i : nat, (i < n)%nat -> right_edge x scale (Z.of_nat i) <= width self) /\
   ((n < len)%nat -> right_edge x scale (Z.of_nat n) > width self) /\
   (0 < scale ->
    n = Z.to_nat (Z.min (Z.of_nat len) (Z.max 0 ((width self - x) / (8 * scale)))))) /\
  (width self = 16 ->
   text FONT_8X8 "ABCDEFGH" 0 0 COLOR_BLACK 2 self
   = _draw_char FONT_8X8 "A" 0 0 COLOR_BLACK 2 self) /\
  (supported self ->
   good_font FONT_8X8 ->
   forall ink,
     color_bits color = Some ink ->
     exists self',
       text FONT_8X8 string x y color scale self = Ok tt self' /\
       same_shape self self' /\
       forall px py,
         in_canvas self px py = true ->
         plane_bits self' px py
         = if text_covers FONT_8X8
                (enumerate_from 0
                   (take (rendered_count (width self) x scale 0
                                         (length (list_ascii_of_string string)))
                         (list_ascii_of_string string)))
                x y scale px py
           then Some ink else plane_bits self px py).
Proof.
  split; [apply text_loop_as_spec |]. split; [| split].
  - cbv zeta. split; [apply rendered_count_le |]. split; [| split].
    + intros i Hi. apply (rendered_count_fit _ _ _ _ 0 i Hi).
    + intros Hn. apply (rendered_count_stop _ _ _ _ 0 Hn).
    + intros Hs. rewrite (rendered_count_closed _ _ _ _ Hs 0), Z.sub_0_r. reflexivity.
  - intros Hw. unfold text. rewrite text_loop_as_spec, Hw.
    cbn [list_ascii_of_string length rendered_count].
    change (right_edge 0 2 0 >? 16) with false.
    change (right_edge 0 2 (0 + 1) >? 16) with true.
    cbn [take enumerate_from for_each]. apply bind_ret_tt.
  - intros Hs Hfont ink Hink. unfold text.
    apply (text_loop_paints FONT_8X8 x y color scale ink
                            (list_ascii_of_string string) Hfont Hink 0 self Hs).
Qed.

Lemma text_layout_witness :
  let self := create_display idle_board ORIENTATION_0 16 16 in
  text sample_font "ABCDEFGH" 0 0 COLOR_BLACK 2 self
  = text_spec sample_font "ABCDEFGH" 0 0 COLOR_BLACK 2 self /\
  (let len := length (list_ascii_of_string "ABCDEFGH") in
   let n := rendered_count (width self) 0 2 0 len in
   (n <= len)%nat /\
   (forall i : nat, (i < n)%nat -> right_edge 0 2 (Z.of_nat i) <= width self) /\
   ((n < len)%nat -> right_edge 0 2 (Z.of_nat n) > width self) /\
   (0 < 2 ->
    n = Z.to_nat (Z.min (Z.of_nat len) (Z.max 0 ((width self - 0) / (8 * 2)))))) /\
  (width self = 16 ->
   text sample_font "ABCDEFGH" 0 0 COLOR_BLACK 2 self
   = _draw_char sample_font "A" 0 0 COLOR_BLACK 2 self) /\
  supported self /\
  good_font sample_font /\
  color_bits COLOR_BLACK = Some (false, false) /\
  exists self',
    text sample_font "ABCDEFGH" 0 0 COLOR_BLACK 2 self = Ok tt self' /\
    same_shape self self' /\
    forall px py,
      in_canvas self px py = true ->
      plane_bits self' px py
      = if text_covers sample_font [(0, "A"%char)] 0 0 2 px py
        then Some (false, false) else plane_bits self px py.
Proof.
  assert (supported (create_display idle_board ORIENTATION_0 16 16)) as Hs.
  { split; [apply constructor_well_formed |]. split; [reflexivity |]. intros _. reflexivity. }
  destruct (text_layout sample_font "ABCDEFGH" 0 0 COLOR_BLACK 2
                        (create_display idle_board ORIENTATION_0 16 16))
    as (Hspec & Hcount & Hfirst & Hplanes).
  split; [exact Hspec |]. split; [exact Hcount |]. split; [exact Hfirst |].
  split; [exact Hs |]. split; [exact sample_font_good |]. split; [reflexivity |].
  exact (Hplanes Hs sample_font_good (false, false) eq_refl).
Defined.

(** ** Text: returning, staying in line, blank glyphs *)

Lemma text_loop_nothing (FONT_8X8 : gmap ascii (list Z)) (blank : list Z)
      (x y color font_size : Z) (chars : list ascii) (self : SSD1681) :
  good_font FONT_8X8 ->
  FONT_8X8 !! " "%char = Some blank ->
  font_size <= 0 \/
  (forall c, c ∈ chars -> Forall (fun bits => bits = 0) (default blank (FONT_8X8 !! c))) ->
  forall i,
    text_loop FONT_8X8 (enumerate_from i chars) x y color font_size (8 * font_size) self
    = Ok tt self.
Proof.
  intros Hfont Hblank Hnothing. induction chars as [| c rest IH]; intros i; [reflexivity |].
  simpl. destruct (_ >? _); [reflexivity |].
  rewrite (bind_ok _ _ self self tt).
  - apply IH. destruct Hnothing as [? | Hz]; [now left | right].
    intros c' Hc'. apply Hz. now right.
  - apply (draw_char_nothing FONT_8X8 c blank); try assumption.
    destruct Hnothing as [? | Hz]; [now left | right]. apply Hz. now left.
Qed.

(** X5: on a supported session and with a font table that has the blank
    and eight rows per glyph, [text] never raises, whatever the string, the
    position, the colour value and the font size, and leaves a supported
    session. *)
Theorem text_never_raises (FONT_8X8 : gmap ascii (list Z)) (string : string)
        (x y color font_size : Z) (self : SSD1681) :
  supported self ->
  good_font FONT_8X8 ->
  exists self', text FONT_8X8 string x y color font_size self = Ok tt self' /\
                supported self'.
Proof.
  intros Hs Hfont.
  destruct (text_loop_returns FONT_8X8 (enumerate_from 0 (list_ascii_of_string string))
                              x y color font_size (8 * font_size) Hfont self Hs)
    as ([] & s & Hrun & Hs').
  now exists s.
Qed.

Lemma text_never_raises_witness :
  let self := create_display idle_board ORIENTATION_0 200 200 in
  exists self', text sample_font "AB A" 190 195 COLOR_RED 3 self = Ok tt self' /\
                supported self'.
Proof.
  apply (text_never_raises sample_font "AB A" 190 195 COLOR_RED 3
                           (create_display idle_board ORIENTATION_0 200 200)).
  - split; [apply constructor_well_formed |]. split; [reflexivity |]. intros _. reflexivity.
  - apply sample_font_good.
Defined.

(** X6: on a panel with whole-byte rows, square for the quarter turns,
    [_draw_char] leaves the plane bits of every canvas pixel outside the
    square of side [8 * font_size] at [(x, y)] as they were, whether it
    returns or raises. *)
Theorem draw_char_stays_in_cell (FONT_8X8 : gmap ascii (list Z)) (char : ascii)
        (x y color font_size : Z) (self : SSD1681) (px py : Z) :
  byte_aligned self ->
  square_for_quarter_turns self ->
  in_canvas self px py = true ->
  ~ in_cell x y font_size px py ->
  plane_bits (final (_draw_char FONT_8X8 char x y color font_size self)) px py
  = plane_bits self px py.
Proof.
  intros Hal Hsq Hin Hout.
  destruct (draw_char_untouched FONT_8X8 char x y color font_size self) as [_ H].
  now apply H.
Qed.

Lemma draw_char_stays_in_cell_witness :
  let self := create_display idle_board ORIENTATION_0 200 200 in
  plane_bits (final (_draw_char sample_font "A" 10 10 COLOR_BLACK 2 self)) 26 10
  = plane_bits self 26 10.
Proof.
  apply (draw_char_stays_in_cell sample_font "A" 10 10 COLOR_BLACK 2
                                 (create_display idle_board ORIENTATION_0 200 200) 26 10).
  - reflexivity.
  - intros _. reflexivity.
  - reflexivity.
  - unfold in_cell. lia.
Defined.

(** X7: on a panel with whole-byte rows, square for the quarter turns,
    [text] leaves the plane bits of every canvas pixel left of [x], above
    [y] or below the [8 * font_size] rows of the line as they were, whether
    it returns or raises. *)
Theorem text_stays_in_line (FONT_8X8 : gmap ascii (list Z)) (string : string)
        (x y color font_size : Z) (self : SSD1681) (px py : Z) :
  byte_aligned self ->
  square_for_quarter_turns self ->
  in_canvas self px py = true ->
  px < x \/ py < y \/ y + 8 * font_size <= py ->
  plane_bits (final (text FONT_8X8 string x y color font_size self)) px py
  = plane_bits self px py.
Proof.
  intros Hal Hsq Hin Hout.
  destruct (text_loop_untouched FONT_8X8 x y color font_size
                                (list_ascii_of_string string) 0 ltac:(lia) self) as [_ H].
  apply H; try assumption. lia.
Qed.

Lemma text_stays_in_line_witness :
  let self := create_display idle_board ORIENTATION_0 200 200 in
  plane_bits (final (text sample_font "AAA" 10 10 COLOR_BLACK 2 self)) 12 26
  = plane_bits self 12 26.
Proof.
  apply (text_stays_in_line sample_font "AAA" 10 10 COLOR_BLACK 2
                            (create_display idle_board ORIENTATION_0 200 200) 12 26).
  - reflexivity.
  - intros _. reflexivity.
  - reflexivity.
  - lia.
Defined.

(** X8: with a font table that lacks the blank, [_draw_char] raises
    [KeyError] for every character, mapped or not, and writes nothing; so
    [text] raises [KeyError] as soon as its first character fits the
    canvas, and returns without drawing otherwise. *)
Theorem text_without_blank (FONT_8X8 : gmap ascii (list Z)) (string : string)
        (x y color font_size : Z) (self : SSD1681) :
  FONT_8X8 !! " "%char = None ->
  (forall char cx cy, _draw_char FONT_8X8 char cx cy color font_size self
                      = Raised KeyError self) /\
  text FONT_8X8 string x y color font_size self
  = match string with
    | EmptyString => Ok tt self
    | String _ _ =>
      if x + 8 * font_size >? width self then Ok tt self else Raised KeyError self
    end.
Proof.
  intros Hmissing.
  assert (forall char cx cy, _draw_char FONT_8X8 char cx cy color font_size self
                             = Raised KeyError self) as Hraise.
  { intros char cx cy. unfold _draw_char. now rewrite Hmissing. }
  split; [exact Hraise |].
  destruct string as [| c rest]; [reflexivity |].
  unfold text. simpl. rewrite Z.add_0_r.
  destruct (_ >? _); [reflexivity |]. apply bind_raised, Hraise.
Qed.

Lemma text_without_blank_witness :
  let self := create_display idle_board ORIENTATION_0 200 200 in
  (forall char cx cy, _draw_char ∅ char cx cy COLOR_BLACK 1 self = Raised KeyError self) /\
  text ∅ "A" 0 0 COLOR_BLACK 1 self
  = if 0 + 8 * 1 >? width self then Ok tt self else Raised KeyError self.
Proof.
  apply (text_without_blank ∅ "A" 0 0 COLOR_BLACK 1
                            (create_display idle_board ORIENTATION_0 200 200)).
  reflexivity.
Defined.

(** X9: with a font table that has the blank and eight rows per glyph,
    [text] changes nothing and returns when the font size is not positive,
    or when every character of the string has a glyph without bits (a
    blank, or an unmapped character replaced by a blank without bits). *)
Theorem text_draws_nothing (FONT_8X8 : gmap ascii (list Z)) (blank : list Z)
        (string : string) (x y color font_size : Z) (self : SSD1681) :
  good_font FONT_8X8 ->
  FONT_8X8 !! " "%char = Some blank ->
  font_size <= 0 \/
  (forall c, c ∈ list_ascii_of_string string ->
             Forall (fun bits => bits = 0) (default blank (FONT_8X8 !! c))) ->
  text FONT_8X8 string x y color font_size self = Ok tt self.
Proof.
  intros Hfont Hblank Hnothing. unfold text.
  now apply (text_loop_nothing FONT_8X8 blank).
Qed.

Lemma text_draws_nothing_witness :
  let self := create_display idle_board ORIENTATION_0 200 200 in
  text sample_font "A A" 0 0 COLOR_BLACK 0 self = Ok tt self.
Proof.
  apply (text_draws_nothing sample_font [0; 0; 0; 0; 0; 0; 0; 0] "A A" 0 0 COLOR_BLACK 0
                            (create_display idle_board ORIENTATION_0 200 200)).
  - apply sample_font_good.
  - reflexivity.
  - left. lia.
Defined.

(** ** Reading a transcript after a prefix *)

Lemma payload_after_single (cmd : Z) (a : transfer) : payload_after cmd [a] = None.
Proof. destruct a as [[| [p | p |] |] [| c [|]]]; reflexivity. Qed.

(** Two transfers that open a transcript are read as a command and its
    payload, or the first one is skipped. *)
Lemma payload_after_pair (cmd : Z) (a b : transfer) (rest : list transfer) :
  (exists c bytes,
      a = Transfer 0 [c] /\ b = Transfer 1 bytes /\
      payload_after cmd (a :: b :: rest)
      = match payload_after cmd rest with
        | Some later => Some later
        | None => if c =? cmd then Some bytes else None
        end) \/
  ((forall bytes, b <> Transfer 1 bytes) /\
   payload_after cmd (a :: b :: rest) = payload_after cmd (b :: rest)) \/
  ((forall c, a <> Transfer 0 [c]) /\
   payload_after cmd (a :: b :: rest) = payload_after cmd (b :: rest)).
Proof.
  destruct a as [[| [p | p |] |] [| c [|]]];
    try (right; right; split; [intros c0; discriminate | reflexivity]).
  destruct b as [[| [q | q |] |] bytes];
    try (right; left; split; [intros b0; discriminate | reflexivity]).
  left. exists c, bytes. repeat split.
Qed.

(** A transcript that continues with a command byte is read as its
    continuation where that holds the command asked for, and as its
    beginning otherwise. *)
Lemma payload_after_app (cmd c0 : Z) (rest : list transfer) (n : nat) :
  forall pre : list transfer,
    (length pre <= n)%nat ->
    payload_after cmd (pre ++ Transfer 0 [c0] :: rest)
    = match payload_after cmd (Transfer 0 [c0] :: rest) with
      | Some later => Some later
      | None => payload_after cmd pre
      end.
Proof.
  induction n as [| n IH]; intros pre Hlen.
  - destruct pre; [| simpl in Hlen; lia]. simpl app.
    now destruct (payload_after cmd (Transfer 0 [c0] :: rest)).
  - destruct pre as [| a [| b pre]].
    + simpl app. now destruct (payload_after cmd (Transfer 0 [c0] :: rest)).
    + rewrite payload_after_single. simpl app.
      destruct (payload_after_pair cmd a (Transfer 0 [c0]) rest)
        as [(c & bytes & _ & [=] & _) | [[_ ->] | [_ ->]]];
        now destruct (payload_after cmd (Transfer 0 [c0] :: rest)).
    + simpl app. simpl in Hlen.
      destruct (payload_after_pair cmd a b (pre ++ Transfer 0 [c0] :: rest))
        as [(c & bytes & -> & -> & ->) | [[Hb ->] | [Ha ->]]].
      * rewrite (IH pre) by lia.
        destruct (payload_after_pair cmd (Transfer 0 [c]) (Transfer 1 bytes) pre)
          as [(c' & bytes' & [= <-] & [= <-] & ->) | [[Hb _] | [Ha _]]];
          [| now contradiction (Hb bytes) | now contradiction (Ha c)].
        now destruct (payload_after cmd (Transfer 0 [c0] :: rest)),
                     (payload_after cmd pre).
      * rewrite app_comm_cons, (IH (b :: pre)) by (simpl; lia).
        destruct (payload_after_pair cmd a b pre)
          as [(c & bytes & _ & -> & _) | [[_ ->] | [_ ->]]];
          [now contradiction (Hb bytes) | reflexivity | reflexivity].
      * rewrite app_comm_cons, (IH (b :: pre)) by (simpl; lia).
        destruct (payload_after_pair cmd a b pre)
          as [(c & bytes & -> & _ & _) | [[_ ->] | [_ ->]]];
          [now contradiction (Ha c) | reflexivity | reflexivity].
Qed.

(** ** What [show] and [init] put on the bus *)

Lemma show_frames_read (bw red : list Z) :
  exists rest,
    show_frames bw red = Transfer 0 [CMD_SET_RAM_X_COUNTER] :: rest /\
    payload_after CMD_WRITE_RAM_BW (show_frames bw red) = Some bw /\
    payload_after CMD_WRITE_RAM_RED (show_frames bw red) = Some red.
Proof. eexists. split; [reflexivity |]. split; reflexivity. Qed.

(** X10: whatever was on the bus before and whatever the busy line does,
    [show] (with fuel for its busy-wait) returns, leaves both planes as
    they were, adds its transfers to the transcript, and the payload that
    follows the last write-B/W-RAM command is the primary plane, the one
    that follows the last write-RED-RAM command the accent plane. *)
Theorem show_sends_planes (fuel : nat) (self : SSD1681) :
  (polls_needed default_timeout_ms <= fuel)%nat ->
  exists self',
    show fuel self = Some self' /\
    buffer self' = buffer self /\
    red_buffer self' = red_buffer self /\
    spi_log (board self')
    = spi_log (board self) ++ show_frames (buffer self) (red_buffer self) /\
    payload_after CMD_WRITE_RAM_BW (spi_log (board self')) = Some (buffer self) /\
    payload_after CMD_WRITE_RAM_RED (spi_log (board self')) = Some (red_buffer self).
Proof.
  intros Hfuel. destruct (show_transmits fuel self Hfuel) as (s' & Hrun & T).
  exists s'. split; [exact Hrun |].
  destruct (transmitted_fields _ _ _ T) as (_ & _ & _ & _ & Hb & Hr).
  destruct T as (bd & -> & Hlog & _). cbn [with_board board] in *.
  split; [exact Hb |]. split; [exact Hr |]. split; [exact Hlog |].
  rewrite Hlog.
  destruct (show_frames_read (buffer self) (red_buffer self)) as (rest & -> & Hbw & Hred).
  split.
  - rewrite (payload_after_app _ _ _ _ _ (le_n _)). now rewrite Hbw.
  - rewrite (payload_after_app _ _ _ _ _ (le_n _)). now rewrite Hred.
Qed.

Lemma show_sends_planes_witness :
  let self := mkSSD1681 stuck_board 16 2 ORIENTATION_0 4 [0xFF; 0x7F; 0xFF; 0xFF] [0; 0; 0x01; 0] in
  exists self',
    show 301 self = Some self' /\
    buffer self' = buffer self /\
    red_buffer self' = red_buffer self /\
    spi_log (board self')
    = spi_log (board self) ++ show_frames (buffer self) (red_buffer self) /\
    payload_after CMD_WRITE_RAM_BW (spi_log (board self')) = Some (buffer self) /\
    payload_after CMD_WRITE_RAM_RED (spi_log (board self')) = Some (red_buffer self).
Proof.
  apply (show_sends_planes 301
           (mkSSD1681 stuck_board 16 2 ORIENTATION_0 4 [0xFF; 0x7F; 0xFF; 0xFF] [0; 0; 0x01; 0])).
  unfold polls_needed. simpl. lia.
Defined.

Lemma init_frames_read (w h : Z) :
  exists rest,
    init_frames w h = Transfer 0 [CMD_SW_RESET] :: rest /\
    payload_after CMD_SET_RAM_X_RANGE (init_frames w h)
    = Some [0; Z.land (w / 8 - 1) 0xFF] /\
    payload_after CMD_SET_RAM_Y_RANGE (init_frames w h)
    = Some [0; 0; Z.land (Z.land (h - 1) 0xFF) 0xFF;
            Z.land (Z.land (Z.shiftr (h - 1) 8) 0xFF) 0xFF].
Proof. eexists. split; [reflexivity |]. split; reflexivity. Qed.

Lemma land_255 (v : Z) : Z.land v 0xFF = v mod 256.
Proof. change 0xFF with (Z.ones 8). now rewrite Z.land_ones. Qed.

(** X11: [init] (with fuel for its busy-waits) returns and programs the
    RAM window from the geometry of the panel: the payload of the last
    set-RAM-X-range command is 0 and [width // 8 - 1] reduced to a byte, the
    payload of the last set-RAM-Y-range command is 0, 0 and the two bytes,
    low first, of [height - 1] reduced to 16 bits; for a width from 8 to
    2055 and a height from 1 to 65536 nothing is lost. *)
Theorem init_encodes_geometry (fuel : nat) (self : SSD1681) :
  (polls_needed default_timeout_ms <= fuel)%nat ->
  exists self' x_end y_end_low y_end_high,
    init fuel self = Some self' /\
    payload_after CMD_SET_RAM_X_RANGE (spi_log (board self')) = Some [0; x_end] /\
    payload_after CMD_SET_RAM_Y_RANGE (spi_log (board self'))
    = Some [0; 0; y_end_low; y_end_high] /\
    x_end = (width self / 8 - 1) mod 256 /\
    (0 <= y_end_low < 256) /\ (0 <= y_end_high < 256) /\
    y_end_low + 256 * y_end_high = (height self - 1) mod 65536 /\
    (8 <= width self < 2056 -> x_end = width self / 8 - 1) /\
    (1 <= height self <= 65536 -> y_end_low + 256 * y_end_high = height self - 1).
Proof.
  intros Hfuel. destruct (init_transmits fuel self Hfuel) as (s' & Hrun & T).
  destruct T as (bd & -> & Hlog & _). cbn [with_board board] in *.
  destruct (init_frames_read (width self) (height self)) as (rest & Hhead & Hx & Hy).
  exists (with_board bd self), ((width self / 8 - 1) mod 256),
         ((height self - 1) mod 256), ((height self - 1) / 256 mod 256).
  split; [exact Hrun |]. cbn [with_board board]. rewrite Hlog.
  split; [| split].
  - rewrite Hhead, (payload_after_app _ _ _ _ _ (le_n _)), <- Hhead, Hx.
    now rewrite land_255.
  - rewrite Hhead, (payload_after_app _ _ _ _ _ (le_n _)), <- Hhead, Hy.
    rewrite !land_255, Z.mod_mod, Z.shiftr_div_pow2 by lia.
    now rewrite Z.mod_mod by lia.
  - split; [reflexivity |].
    split; [apply Z.mod_pos_bound; lia |]. split; [apply Z.mod_pos_bound; lia |].
    split; [Z.div_mod_to_equations; lia |].
    split; [intros Hw | intros Hh]; Z.div_mod_to_equations; lia.
Qed.

Lemma init_encodes_geometry_witness :
  let self := create_display stuck_board ORIENTATION_0 200 200 in
  exists self' x_end y_end_low y_end_high,
    init 301 self = Some self' /\
    payload_after CMD_SET_RAM_X_RANGE (spi_log (board self')) = Some [0; x_end] /\
    payload_after CMD_SET_RAM_Y_RANGE (spi_log (board self'))
    = Some [0; 0; y_end_low; y_end_high] /\
    x_end = (width self / 8 - 1) mod 256 /\
    (0 <= y_end_low < 256) /\ (0 <= y_end_high < 256) /\
    y_end_low + 256 * y_end_high = (height self - 1) mod 65536 /\
    (8 <= width self < 2056 -> x_end = width self / 8 - 1) /\
    (1 <= height self <= 65536 -> y_end_low + 256 * y_end_high = height self - 1).
Proof.
  apply (init_encodes_geometry 301 (create_display stuck_board ORIENTATION_0 200 200)).
  unfold polls_needed. simpl. lia.
Defined.

(** ** Pins and clock *)

Lemma command_pins (cmd : Z) (data : option pyval) (self : SSD1681) :
  cs (board (_command cmd data self)) = 1 /\
  rst (board (_command cmd data self)) = rst (board self) /\
  overrun (board (_command cmd data self)) = overrun (board self) /\
  busy_line (board (_command cmd data self)) = busy_line (board self).
Proof. destruct data as [[items | bytes | n] |]; repeat split. Qed.




Lemma command_rst (cmd : Z) (data : option pyval) (self : SSD1681) :
  rst (board (_command cmd data self)) = rst (board self).
Proof. apply command_pins. Qed.

Lemma command_cs (cmd : Z) (data : option pyval) (self : SSD1681) :
  cs (board (_command cmd data self)) = 1.
Proof. apply command_pins. Qed.

Lemma wait_busy_loop_pins (fuel : nat) :
  forall (start timeout_ms : Z) (self self' : SSD1681),
    _wait_busy_loop fuel start timeout_ms self = Some self' ->
    cs (board self') = cs (board self) /\ rst (board self') = rst (board self).
Proof.
  induction fuel as [| fuel IH]; intros start timeout_ms self self'; [discriminate |].
  cbn [_wait_busy_loop]. destruct (_ && _).
  - intros Hrun. destruct (IH _ _ _ _ Hrun) as [Hcs Hrst].
    rewrite Hcs, Hrst. split; reflexivity.
  - intros [= <-]. split; reflexivity.
Qed.

Lemma wait_busy_pins (fuel : nat) (timeout_ms : Z) (self self' : SSD1681) (ready : bool) :
  _wait_busy fuel timeout_ms self = Some (ready, self') ->
  cs (board self') = cs (board self) /\ rst (board self') = rst (board self).
Proof.
  unfold _wait_busy.
  destruct (_wait_busy_loop fuel (ticks (board self)) timeout_ms self) as [s |] eqn:Hloop;
    [| discriminate].
  cbn [mbind option_bind]. intros [= _ <-]. exact (wait_busy_loop_pins _ _ _ _ _ Hloop).
Qed.

Lemma reset_ram_address_cs (self : SSD1681) :
  cs (board (_reset_ram_address self)) = 1.
Proof. unfold _reset_ram_address. apply command_cs. Qed.

Lemma reset_ram_address_rst (self : SSD1681) :
  rst (board (_reset_ram_address self)) = rst (board self).
Proof. unfold _reset_ram_address. rewrite !command_rst. reflexivity. Qed.

Lemma power_on_sequence_pins (fuel : nat) (self self' : SSD1681) :
  _power_on_sequence fuel self = Some self' ->
  cs (board self') = 1 /\ rst (board self') = 1.
Proof.
  unfold _power_on_sequence. cbn zeta.
  destruct (_wait_busy fuel default_timeout_ms (reset self)) as [[r1 s1] |] eqn:W1;
    [| discriminate].
  cbn [mbind option_bind].
  destruct (_wait_busy fuel default_timeout_ms (_command CMD_SW_RESET None s1))
    as [[r2 s2] |] eqn:W2; [| discriminate].
  cbn [mbind option_bind]. intros [= <-].
  destruct (wait_busy_pins _ _ _ _ _ W1) as [_ Hrst1].
  destruct (wait_busy_pins _ _ _ _ _ W2) as [Hcs2 Hrst2].
  rewrite Hcs2, Hrst2, command_cs, command_rst, Hrst1. split; reflexivity.
Qed.

Lemma configure_ram_cs (self : SSD1681) :
  cs (board (_configure_ram self)) = 1.
Proof. unfold _configure_ram. cbn zeta. exact (reset_ram_address_cs _). Qed.

Lemma configure_ram_rst (self : SSD1681) :
  rst (board (_configure_ram self)) = rst (board self).
Proof.
  unfold _configure_ram. cbn zeta.
  rewrite reset_ram_address_rst, !command_rst. reflexivity.
Qed.

Lemma load_lut_pins (fuel : nat) (self self' : SSD1681) :
  _load_lut fuel self = Some self' ->
  cs (board self') = 1 /\ rst (board self') = rst (board self).
Proof.
  unfold _load_lut. cbn zeta.
  destruct (_wait_busy fuel default_timeout_ms _) as [[r s] |] eqn:W; [| discriminate].
  cbn [mbind option_bind]. intros [= <-].
  destruct (wait_busy_pins _ _ _ _ _ W) as [Hcs Hrst].
  rewrite Hcs, Hrst, command_cs, !command_rst. split; reflexivity.
Qed.

Lemma init_pins (fuel : nat) (self self' : SSD1681) :
  init fuel self = Some self' ->
  cs (board self') = 1 /\ rst (board self') = 1.
Proof.
  unfold init.
  destruct (_power_on_sequence fuel self) as [s1 |] eqn:H1; [| discriminate].
  cbn [mbind option_bind]. cbn zeta.
  destruct (_load_lut fuel (_configure_ram s1)) as [s3 |] eqn:H3; [| discriminate].
  cbn [mbind option_bind].
  destruct (_wait_busy fuel default_timeout_ms s3) as [[r s4] |] eqn:W; [| discriminate].
  cbn [mbind option_bind]. intros [= <-].
  destruct (power_on_sequence_pins _ _ _ H1) as [_ Hrst1].
  destruct (load_lut_pins _ _ _ H3) as [Hcs3 Hrst3].
  destruct (wait_busy_pins _ _ _ _ _ W) as [Hcs4 Hrst4].
  rewrite Hcs4, Hrst4, Hcs3, Hrst3, (configure_ram_rst s1), Hrst1.
  split; reflexivity.
Qed.

Lemma show_pins (fuel : nat) (self self' : SSD1681) :
  show fuel self = Some self' ->
  cs (board self') = 1 /\ rst (board self') = rst (board self).
Proof.
  unfold show. cbn zeta.
  destruct (_wait_busy fuel default_timeout_ms _) as [[r s] |] eqn:W; [| discriminate].
  cbn [mbind option_bind]. intros [= <-].
  destruct (wait_busy_pins _ _ _ _ _ W) as [Hcs Hrst].
  rewrite Hcs, Hrst, command_cs, !command_rst.
  rewrite reset_ram_address_rst, command_rst, reset_ram_address_rst.
  split; reflexivity.
Qed.

(** X12: chip-select is high (the bus is released) after the constructor
    and after [init], [show] and [sleep], whatever the pins were before; the
    reset line is high after the constructor and after [init], and [show]
    and [sleep] do not move it. *)
Theorem pins_after_methods (fuel : nat) (self : SSD1681) :
  (polls_needed default_timeout_ms <= fuel)%nat ->
  (forall bd w h o,
      cs (board (__init__ bd w h o)) = 1 /\ rst (board (__init__ bd w h o)) = 1) /\
  (exists self', init fuel self = Some self' /\
                 cs (board self') = 1 /\ rst (board self') = 1) /\
  (exists self', show fuel self = Some self' /\
                 cs (board self') = 1 /\ rst (board self') = rst (board self)) /\
  cs (board (sleep self)) = 1 /\ rst (board (sleep self)) = rst (board self).
Proof.
  intros Hfuel. split; [intros bd w h o; split; reflexivity |]. split; [| split].
  - destruct (init_transmits fuel self Hfuel) as (s' & Hrun & _).
    exists s'. split; [exact Hrun | exact (init_pins _ _ _ Hrun)].
  - destruct (show_transmits fuel self Hfuel) as (s' & Hrun & _).
    exists s'. split; [exact Hrun | exact (show_pins _ _ _ Hrun)].
  - unfold sleep. split; [apply command_cs | apply command_rst].
Qed.

Lemma pins_after_methods_witness :
  let self := mkSSD1681 (mkBoard [] 0 1 0 (fun _ => true) 7 (fun _ => 3%N))
                        200 200 ORIENTATION_0 5000 [] [] in
  (forall bd w h o,
      cs (board (__init__ bd w h o)) = 1 /\ rst (board (__init__ bd w h o)) = 1) /\
  (exists self', init 301 self = Some self' /\
                 cs (board self') = 1 /\ rst (board self') = 1) /\
  (exists self', show 301 self = Some self' /\
                 cs (board self') = 1 /\ rst (board self') = rst (board self)) /\
  cs (board (sleep self)) = 1 /\ rst (board (sleep self)) = rst (board self).
Proof.
  apply (pins_after_methods 301
           (mkSSD1681 (mkBoard [] 0 1 0 (fun _ => true) 7 (fun _ => 3%N))
                      200 200 ORIENTATION_0 5000 [] [])).
  unfold polls_needed. simpl. lia.
Defined.



(** X14: the two immediate returns of [_wait_busy]: with a timeout that is
    not positive it reports "not ready" without sleeping, even when the
    busy line is low; with a positive timeout and the busy line low at the
    call it reports "ready" without sleeping.  Neither changes the object. *)
Theorem wait_busy_immediate (fuel : nat) (timeout_ms : Z) (self : SSD1681) :
  (timeout_ms <= 0 -> _wait_busy (S fuel) timeout_ms self = Some (false, self)) /\
  (0 < timeout_ms ->
   busy_line (board self) (ticks (board self)) = false ->
   _wait_busy (S fuel) timeout_ms self = Some (true, self)).
Proof.
  unfold _wait_busy, ticks_diff. cbn [_wait_busy_loop]. unfold ticks_diff.
  rewrite Z.sub_diag. split.
  - intros Hneg. destruct (0 <? timeout_ms) eqn:E; [apply Z.ltb_lt in E; lia |].
    rewrite andb_false_r. cbn [mbind option_bind]. now rewrite Z.sub_diag, E.
  - intros Hpos Hidle. rewrite Hidle. cbn [andb mbind option_bind].
    rewrite Z.sub_diag. now apply Z.ltb_lt in Hpos as ->.
Qed.

Lemma wait_busy_immediate_witness :
  let self := create_display idle_board ORIENTATION_0 200 200 in
  (0 <= 0 -> _wait_busy 1 0 self = Some (false, self)) /\
  (0 < 15000 ->
   busy_line (board self) (ticks (board self)) = false ->
   _wait_busy 1 15000 self = Some (true, self)).
Proof.
  split.
  - apply (wait_busy_immediate 0 0 (create_display idle_board ORIENTATION_0 200 200)).
  - apply (wait_busy_immediate 0 15000 (create_display idle_board ORIENTATION_0 200 200)).
Defined.
